(** * U-HSP rules engine: RuleEvaluator, ActionExecutor, ContentPackLoader

    A shallow embedding of the three engine classes of
    [src/engine] (RuleEvaluator.ts, ActionExecutor.ts, ContentPackLoader.ts)
    together with the part of [types.ts] they read, and the properties of
    the engine stated over that embedding. *)

From Stdlib Require Import ZArith List String Ascii Bool Lia.
From Stdlib Require Import Sorting.Sorted Sorting.Permutation DecimalString.
From stdpp Require Import base option gmap strings.
Import ListNotations.

Set Warnings "-register-all".

Local Open Scope string_scope.
Local Open Scope Z_scope.

(** ** Exceptions

    A computation that may [throw]: either a value or the message of the
    [Error] that was raised. *)

Inductive Result (A : Type) : Type :=
| Ok (a : A)
| Throw (message : string).
Arguments Ok {A} a.
Arguments Throw {A} message.

Definition bind {A B} (m : Result A) (k : A -> Result B) : Result B :=
  match m with
  | Ok a => k a
  | Throw e => Throw e
  end.

Notation "'let*' x ':=' m 'in' k" := (bind m (fun x => k))
  (at level 10, x name, m at level 100, k at level 200).
Notation "'do' m 'then' k" := (bind m (fun _ => k))
  (at level 10, m at level 100, k at level 200).

Definition returns {A} (m : Result A) : Prop := exists a, m = Ok a.

(** ** JavaScript values and the primitive operations the engine uses *)

Module Js.

(** Session data is JSON data: the first seven shapes below.  Numbers
    are the integers (the engine compares and subtracts them, nothing
    else).  An object is its list of own members in insertion order; the
    first binding of a key is the one a read sees.  The eighth shape is
    what a lookup finds on a prototype, a method such as [toString]; data
    never contains one. *)
Inductive value : Type :=
| VUndefined
| VNull
| VBool (b : bool)
| VNumber (n : Z)
| VString (s : string)
| VArray (elems : list value)
| VObject (props : list (string * value))
| VFunction (name : string).

Inductive typeTag :=
| TUndefined | TObject | TBoolean | TNumber | TString | TFunction.

Definition typeTag_eqb (a b : typeTag) : bool :=
  match a, b with
  | TUndefined, TUndefined | TObject, TObject | TBoolean, TBoolean
  | TNumber, TNumber | TString, TString | TFunction, TFunction => true
  | _, _ => false
  end.

(** [typeof v]; [typeof null] is ['object']. *)
Definition typeof (v : value) : typeTag :=
  match v with
  | VUndefined => TUndefined
  | VNull => TObject
  | VBool _ => TBoolean
  | VNumber _ => TNumber
  | VString _ => TString
  | VArray _ => TObject
  | VObject _ => TObject
  | VFunction _ => TFunction
  end.

(** [Array.isArray v] *)
Definition isArray (v : value) : bool :=
  match v with VArray _ => true | _ => false end.

(** ToBoolean, as applied by [!v], [v && ...] and [if (v)]. *)
Definition truthy (v : value) : bool :=
  match v with
  | VUndefined | VNull => false
  | VBool b => b
  | VNumber n => negb (n =? 0)
  | VString s => negb (String.eqb s "")
  | VArray _ | VObject _ | VFunction _ => true
  end.

(** [a === b] for two values that come from different object graphs (a
    rule's literal against session data): primitives compare by value,
    and two distinct arrays, objects or functions are never identical. *)
Definition strictEquals (a b : value) : bool :=
  match a, b with
  | VUndefined, VUndefined => true
  | VNull, VNull => true
  | VBool x, VBool y => Bool.eqb x y
  | VNumber x, VNumber y => x =? y
  | VString x, VString y => String.eqb x y
  | _, _ => false
  end.

(** [hay.includes(needle)] on strings: substring search. *)
Definition stringIncludes (hay needle : string) : bool :=
  match String.index 0 needle hay with
  | Some _ => true
  | None => false
  end.

(** [arr.includes(x)] on arrays. *)
Definition arrayIncludes (arr : list value) (x : value) : bool :=
  existsb (fun e => strictEquals e x) arr.

(** [s.split(sep)] for a one-character separator: always at least one
    piece, empty pieces kept. *)
Fixpoint split (sep : ascii) (s : string) : list string :=
  match s with
  | EmptyString => [EmptyString]
  | String c rest =>
      if Ascii.eqb c sep then EmptyString :: split sep rest
      else match split sep rest with
           | [] => [String c EmptyString]
           | piece :: pieces => String c piece :: pieces
           end
  end.

(** [String(n)] for an integer. *)
Definition numberToString (n : Z) : string :=
  NilZero.string_of_int (Z.to_int n).

(** The index an own key of an array of length [len] denotes: the key
    must be the canonical decimal rendering of some [i < len]. *)
Definition arrayIndex (key : string) (len : nat) : option nat :=
  List.find (fun i => String.eqb (numberToString (Z.of_nat i)) key)
            (seq 0 len).

Fixpoint lookupProp (key : string) (props : list (string * value))
  : option value :=
  match props with
  | [] => None
  | (k, v) :: rest => if String.eqb k key then Some v else lookupProp key rest
  end.

(** The own member [key] of a value, if it has one: a binding of an
    object, an index or the length of an array or of a string. *)
Definition ownProperty (v : value) (key : string) : option value :=
  match v with
  | VObject props => lookupProp key props
  | VArray elems =>
      if String.eqb key "length" then Some (VNumber (Z.of_nat (length elems)))
      else i ← arrayIndex key (length elems); elems !! i
  | VString s =>
      if String.eqb key "length" then Some (VNumber (Z.of_nat (String.length s)))
      else i ← arrayIndex key (String.length s);
           c ← String.get i s;
           Some (VString (String c EmptyString))
  | _ => None
  end.

(** What the prototype chain of a value holds under a key:
    [Object.prototype.toString] for an object and ["toString"],
    [Array.prototype.map] for an array and ["map"], nothing for most
    keys.  Which members these are depends on the engine, so the chain is
    a parameter of every lookup. *)
Definition prototypeChain : Type := value -> string -> option value.

(** No inherited members at all. *)
Definition noPrototype : prototypeChain := fun _ _ => None.

Section Members.
Context (inherited : prototypeChain).

(** [key in v]: an own or an inherited member.  On anything that is not
    an object the operator raises a TypeError. *)
Definition hasProperty (key : string) (v : value) : Result bool :=
  match v with
  | VObject _ | VArray _ | VFunction _ =>
      Ok (bool_decide (is_Some (ownProperty v key))
          || bool_decide (is_Some (inherited v key)))
  | _ => Throw "TypeError: Cannot use 'in' operator to search in a non-object"
  end.

(** [v[key]]: a member read, own members first.  Reading from [null] or
    [undefined] raises a TypeError; an absent member reads as
    [undefined]. *)
Definition getProperty (v : value) (key : string) : Result value :=
  match v with
  | VUndefined | VNull =>
      Throw "TypeError: Cannot read properties of undefined or null"
  | _ =>
      match ownProperty v key with
      | Some member => Ok member
      | None => Ok (default VUndefined (inherited v key))
      end
  end.

End Members.

(** [Array.prototype.sort(comparefn)].  ECMAScript requires the sort to
    be stable and, for a consistent comparator, to leave the array in
    the comparator's order; that fixes the result, and insertion from
    the right computes it: an element moves past exactly those later
    elements that the comparator puts strictly before it. *)
Section Sort.
Context {A : Type} (comparefn : A -> A -> Z).

Fixpoint insertSorted (x : A) (sorted : list A) : list A :=
  match sorted with
  | [] => [x]
  | y :: rest =>
      if comparefn x y <=? 0 then x :: y :: rest
      else y :: insertSorted x rest
  end.

Fixpoint sort (l : list A) : list A :=
  match l with
  | [] => []
  | x :: rest => insertSorted x (sort rest)
  end.
End Sort.

(** [pieces.join(sep)] *)
Fixpoint join (sep : string) (pieces : list string) : string :=
  match pieces with
  | [] => EmptyString
  | [p] => p
  | p :: rest => p ++ sep ++ join sep rest
  end.

(** [s.repeat(n)] *)
Fixpoint repeat (s : string) (n : nat) : string :=
  match n with
  | O => EmptyString
  | S k => s ++ repeat s k
  end.

Definition mapChars (f : ascii -> ascii) : string -> string :=
  fix go (s : string) : string :=
    match s with
    | EmptyString => EmptyString
    | String c rest => String (f c) (go rest)
    end.

(** Case mapping of one character; the engine's tags and labels are
    ASCII, where a letter and its other case differ by 32. *)
Definition lowerChar (c : ascii) : ascii :=
  let n := nat_of_ascii c in
  if ((65 <=? n) && (n <=? 90))%nat then ascii_of_nat (n + 32) else c.

Definition upperChar (c : ascii) : ascii :=
  let n := nat_of_ascii c in
  if ((97 <=? n) && (n <=? 122))%nat then ascii_of_nat (n - 32) else c.

(** [s.toLowerCase()] and [s.toUpperCase()] *)
Definition toLowerCase : string -> string := mapChars lowerChar.
Definition toUpperCase : string -> string := mapChars upperChar.

(** ToBoolean of an optional string, number or boolean member: absent,
    the empty string, zero and [false] are falsy. *)
Definition truthyString (s : option string) : bool :=
  match s with Some x => negb (String.eqb x EmptyString) | None => false end.
Definition truthyNumber (n : option Z) : bool :=
  match n with Some x => negb (x =? 0) | None => false end.
Definition truthyBool (b : option bool) : bool :=
  match b with Some x => x | None => false end.

(** The line feed of the template literals. *)
Definition nl : string := String (ascii_of_nat 10) EmptyString.

End Js.

(** ** types.ts

    One module per interface, so that members keep their names.  An
    optional member [m?: T] is an [option T]; [None] is [undefined]. *)

(** [ConditionOperator].  [op_other] stands for any string outside the
    union, which is what the [default] branch of [evaluateConditionRule]
    receives. *)
Inductive ConditionOperator : Type :=
| equals
| notEquals
| greaterThan
| lessThan
| greaterThanOrEqual
| lessThanOrEqual
| contains
| notContains
| op_in
| notIn
| op_exists
| notExists
| op_other (name : string).

(** [LogicalOperator], with [type_other] for a string outside the union
    (the [default] branch of [evaluateConditions]). *)
Inductive LogicalOperator : Type :=
| type_all
| type_any
| type_none
| type_other (name : string).

Module RightRuleConditionRule.
(** An absent [value] is [VUndefined]. *)
Record t : Type := {
  field : string;
  operator : ConditionOperator;
  value : Js.value
}.
End RightRuleConditionRule.

Module RightRuleConditions.
Inductive t : Type := make {
  type : LogicalOperator;
  rules : option (list RightRuleConditionRule.t);
  nested : option (list t)
}.
End RightRuleConditions.

Module RightRule.
Record t : Type := {
  id : string;
  name : string;
  description : option string;
  jurisdiction : string;
  legalBasis : option string;
  priority : option Z;
  conditions : RightRuleConditions.t;
  actions : list string
}.
End RightRule.

Inductive ActionType : Type :=
| immediate | referral | application | assessment | notification | documentation.

Inductive ActionCategory : Type :=
| emergency | housing | financial | support | legal | medical | other.

Inductive ActionUrgency : Type := critical | high | medium | low.

Inductive InputFieldType : Type :=
| text | number | date | boolean | select | multiselect | textarea.

Module ActionInputField.
Record t : Type := {
  name : string;
  label : option string;
  type : InputFieldType;
  required : option bool
}.
End ActionInputField.

Module ActionStep.
Record t : Type := {
  order : Z;
  instruction : string;
  requiresInput : option bool;
  inputFields : option (list ActionInputField.t)
}.
End ActionStep.

Module ActionContactInfo.
Record t : Type := {
  phone : option string;
  email : option string;
  website : option string;
  address : option string;
  hoursOfOperation : option string
}.
End ActionContactInfo.

Module ActionOutcome.
Record t : Type := {
  id : string;
  description : string;
  nextActions : option (list string)
}.
End ActionOutcome.

Module ActionTemplate.
Record t : Type := {
  id : string;
  name : string;
  description : option string;
  type : ActionType;
  category : ActionCategory;
  urgency : option ActionUrgency;
  steps : option (list ActionStep.t);
  requiredInformation : option (list string);
  estimatedDuration : option string;
  contactInfo : option ActionContactInfo.t;
  prerequisites : option (list string);
  relatedServices : option (list string);
  outcomes : option (list ActionOutcome.t)
}.

(** The object after [steps] has been assigned or rearranged in place. *)
Definition withSteps (action : t) (steps' : option (list ActionStep.t)) : t :=
  {| id := id action; name := name action; description := description action;
     type := type action; category := category action;
     urgency := urgency action; steps := steps';
     requiredInformation := requiredInformation action;
     estimatedDuration := estimatedDuration action;
     contactInfo := contactInfo action;
     prerequisites := prerequisites action;
     relatedServices := relatedServices action;
     outcomes := outcomes action |}.
End ActionTemplate.

Module Service.
Record availability_t : Type := {
  isAvailable24_7 : option bool
}.
Record eligibility_t : Type := {
  acceptsPets : option bool;
  requiresReferral : option bool;
  localConnectionRequired : option bool
}.
(** [type] is kept as the string it is compared with. *)
Record t : Type := {
  id : string;
  name : string;
  description : option string;
  type : string;
  availability : option availability_t;
  eligibility : option eligibility_t
}.
End Service.

Module Question.
Record t : Type := {
  id : string;
  text : string;
  type : string;
  required : option bool;
  stateMapping : option string;
  priority : option Z
}.
End Question.

Module SessionState.
Record contact_t : Type := {
  phone : option string;
  email : option string
}.
Record user_t : Type := {
  firstName : option string;
  lastName : option string;
  age : option Z;
  contact : option contact_t;
  hasChildren : option bool
}.
Record situation_t : Type := {
  homelessTonight : option bool;
  currentLocation : option string
}.
Record completedAction_t : Type := {
  actionId : string;
  completedAt : string;
  outcome : option string
}.
(** The statically typed view of the session state that ActionExecutor
    reads through member access. *)
Record t : Type := {
  sessionId : string;
  createdAt : string;
  user : option user_t;
  situation : option situation_t;
  completedActions : option (list completedAction_t);
  pendingActions : option (list string)
}.
End SessionState.

Module ContentPack.
(** The four members that [validateContentPack] tests for presence are
    optional here: a pack read from JSON may lack them whatever the
    interface says. *)
Record t : Type := {
  id : option string;
  name : option string;
  description : option string;
  version : option string;
  jurisdiction : option string;
  entryPoint : option string;
  questions : option (list Question.t);
  rules : option (list RightRule.t);
  actions : option (list ActionTemplate.t);
  services : option (list Service.t)
}.
End ContentPack.

(** The structural type [{ id: string }] that [checkDuplicateIds] takes. *)
Class HasId (A : Type) : Type := getId : A -> string.
#[global] Instance Question_HasId : HasId Question.t := Question.id.
#[global] Instance RightRule_HasId : HasId RightRule.t := RightRule.id.
#[global] Instance ActionTemplate_HasId : HasId ActionTemplate.t := ActionTemplate.id.
#[global] Instance Service_HasId : HasId Service.t := Service.id.

(** ** RuleEvaluator.ts *)

Module RuleEvaluator.

Section Evaluator.
(** The prototype chain of the values of the session state. *)
Context (inherited : Js.prototypeChain).

(** The [for] loop of [getFieldValue]: [current] is the loop variable
    [value], [parts] the segments still to visit.  The session state is
    walked as a value of type [unknown]. *)
Fixpoint walkPath (parts : list string) (current : Js.value)
  : Result Js.value :=
  match parts with
  | [] => Ok current
  | part :: rest =>
      let* present :=
        (if Js.truthy current && Js.typeTag_eqb (Js.typeof current) Js.TObject
         then Js.hasProperty inherited part current
         else Ok false) in
      if present
      then let* next := Js.getProperty inherited current part in walkPath rest next
      else Ok Js.VUndefined
  end.

Definition getFieldValue (path : string) (sessionState : Js.value)
  : Result Js.value :=
  let parts := Js.split "." path in
  walkPath parts sessionState.

(** [typeof a === 'number' && typeof b === 'number' && test a b] *)
Definition bothNumbers (a b : Js.value) (test : Z -> Z -> bool) : bool :=
  match a, b with
  | Js.VNumber x, Js.VNumber y => test x y
  | _, _ => false
  end.

Definition evaluateConditionRule (rule : RightRuleConditionRule.t)
  (sessionState : Js.value) : Result bool :=
  let* fieldValue :=
    getFieldValue (RightRuleConditionRule.field rule) sessionState in
  let value := RightRuleConditionRule.value rule in
  match RightRuleConditionRule.operator rule with
  | equals => Ok (Js.strictEquals fieldValue value)
  | notEquals => Ok (negb (Js.strictEquals fieldValue value))
  | greaterThan => Ok (bothNumbers fieldValue value Z.gtb)
  | lessThan => Ok (bothNumbers fieldValue value Z.ltb)
  | greaterThanOrEqual => Ok (bothNumbers fieldValue value Z.geb)
  | lessThanOrEqual => Ok (bothNumbers fieldValue value Z.leb)
  | contains =>
      match fieldValue, value with
      | Js.VString f, Js.VString v => Ok (Js.stringIncludes f v)
      | Js.VArray f, _ => Ok (Js.arrayIncludes f value)
      | _, _ => Ok false
      end
  | notContains =>
      match fieldValue, value with
      | Js.VString f, Js.VString v => Ok (negb (Js.stringIncludes f v))
      | Js.VArray f, _ => Ok (negb (Js.arrayIncludes f value))
      | _, _ => Ok true
      end
  | op_in =>
      match value with
      | Js.VArray v => Ok (Js.arrayIncludes v fieldValue)
      | _ => Ok false
      end
  | notIn =>
      match value with
      | Js.VArray v => Ok (negb (Js.arrayIncludes v fieldValue))
      | _ => Ok false
      end
  | op_exists =>
      Ok (negb (Js.strictEquals fieldValue Js.VUndefined)
          && negb (Js.strictEquals fieldValue Js.VNull))
  | notExists =>
      Ok (Js.strictEquals fieldValue Js.VUndefined
          || Js.strictEquals fieldValue Js.VNull)
  | op_other _ => Ok false  (* after [console.warn] *)
  end.

(** [xs.map(f)] for an [f] that may throw: left to right, stopping at the
    first exception. *)
Fixpoint mapResult {A B} (f : A -> Result B) (xs : list A) : Result (list B) :=
  match xs with
  | [] => Ok []
  | x :: rest =>
      let* y := f x in
      let* ys := mapResult f rest in
      Ok (y :: ys)
  end.

Fixpoint evaluateConditions (conditions : RightRuleConditions.t)
  (sessionState : Js.value) {struct conditions} : Result bool :=
  let rules := default [] (RightRuleConditions.rules conditions) in
  let* ruleResults :=
    mapResult (fun rule => evaluateConditionRule rule sessionState) rules in
  let* nestedResults :=
    match RightRuleConditions.nested conditions with
    | None => Ok []
    | Some nested =>
        (fix each (groups : list RightRuleConditions.t) : Result (list bool) :=
           match groups with
           | [] => Ok []
           | nestedCondition :: more =>
               let* r := evaluateConditions nestedCondition sessionState in
               let* rs := each more in
               Ok (r :: rs)
           end) nested
    end in
  let allResults := (ruleResults ++ nestedResults)%list in
  match RightRuleConditions.type conditions with
  | type_all =>
      Ok ((0 <? length allResults)%nat
          && forallb (fun result => result) allResults)
  | type_any =>
      Ok ((0 <? length allResults)%nat
          && existsb (fun result => result) allResults)
  | type_none =>
      Ok ((0 <? length allResults)%nat
          && forallb (fun result => negb result) allResults)
  | type_other _ => Ok false
  end.

(** The [try]/[catch] of [evaluateRule]: an exception from the condition
    tree is logged and makes the rule a non-match. *)
Definition evaluateRule (rule : RightRule.t) (sessionState : Js.value) : bool :=
  match evaluateConditions (RightRule.conditions rule) sessionState with
  | Ok matched => matched
  | Throw _ => false
  end.

(** The comparator handed to [sort]: [(b.priority ?? 0) - (a.priority ?? 0)]. *)
Definition byPriority (a b : RightRule.t) : Z :=
  default 0 (RightRule.priority b) - default 0 (RightRule.priority a).

Definition evaluateRules (rules : list RightRule.t) (sessionState : Js.value)
  : list RightRule.t :=
  let sortedRules := Js.sort byPriority rules in
  List.filter (fun rule => evaluateRule rule sessionState) sortedRules.

(** [new Set()] filled by [add] and read back by [Array.from]: first
    occurrences, in insertion order. *)
Fixpoint addAll (seen : list string) (ids : list string) : list string :=
  match ids with
  | [] => seen
  | actionId :: rest =>
      if bool_decide (actionId ∈ seen) then addAll seen rest
      else addAll (seen ++ [actionId])%list rest
  end.

Definition getTriggeredActions (rules : list RightRule.t)
  (sessionState : Js.value) : list string :=
  let matchingRules := evaluateRules rules sessionState in
  fold_left (fun actionIds rule => addAll actionIds (RightRule.actions rule))
            matchingRules [].

End Evaluator.

End RuleEvaluator.

(** ** ActionExecutor.ts *)

Module ActionExecutor.

Inductive Status : Type := completed | pending | failed | skipped.

Module ActionExecutionResult.
Record t : Type := {
  actionId : string;
  status : Status;
  message : option string;
  timestamp : string;
  outcome : option string;
  notes : option string
}.
End ActionExecutionResult.

Module Prepared.
Record t : Type := {
  action : ActionTemplate.t;
  missingInformation : list string;
  canExecute : bool
}.
End Prepared.

Definition hasRequiredInfo (info : string) (sessionState : SessionState.t) : bool :=
  let infoLower := Js.toLowerCase info in
  if Js.stringIncludes infoLower "location" then
    Js.truthyString
      (situation ← SessionState.situation sessionState;
       SessionState.currentLocation situation)
  else if Js.stringIncludes infoLower "age" then
    Js.truthyNumber
      (user ← SessionState.user sessionState; SessionState.age user)
  else if Js.stringIncludes infoLower "children"
          || Js.stringIncludes infoLower "dependents" then
    bool_decide
      ((user ← SessionState.user sessionState; SessionState.hasChildren user)
       ≠ None)
  else if Js.stringIncludes infoLower "name" then
    let user := SessionState.user sessionState in
    Js.truthyString (user ≫= SessionState.firstName)
    && Js.truthyString (user ≫= SessionState.lastName)
  else if Js.stringIncludes infoLower "contact" then
    let contact := SessionState.user sessionState ≫= SessionState.contact in
    Js.truthyString (contact ≫= SessionState.phone)
    || Js.truthyString (contact ≫= SessionState.email)
  else true.

Definition prepareAction (action : ActionTemplate.t)
  (sessionState : SessionState.t) : Prepared.t :=
  let missingInfo :=
    match ActionTemplate.requiredInformation action with
    | Some requiredInformation =>
        List.filter (fun info => negb (hasRequiredInfo info sessionState))
                    requiredInformation
    | None => []
    end in
  let missingPrereqs :=
    match ActionTemplate.prerequisites action with
    | Some prerequisites =>
        if (0 <? length prerequisites)%nat then
          let completedActionIds :=
            List.map SessionState.actionId
                     (default [] (SessionState.completedActions sessionState)) in
          List.map (fun prereqId => "Prerequisite action: " ++ prereqId)
            (List.filter
               (fun prereqId => negb (bool_decide (prereqId ∈ completedActionIds)))
               prerequisites)
        else []
    | None => []
    end in
  let missingInformation := (missingInfo ++ missingPrereqs)%list in
  {| Prepared.action := action;
     Prepared.missingInformation := missingInformation;
     Prepared.canExecute := (length missingInformation =? 0)%nat |}.

(** [now] is what [new Date().toISOString()] returns during the call. *)
Definition executeAction (now : string) (action : ActionTemplate.t)
  (sessionState : SessionState.t) : ActionExecutionResult.t :=
  let prepared := prepareAction action sessionState in
  if negb (Prepared.canExecute prepared) then
    {| ActionExecutionResult.actionId := ActionTemplate.id action;
       ActionExecutionResult.status := pending;
       ActionExecutionResult.message :=
         Some ("Missing required information: "
               ++ Js.join ", " (Prepared.missingInformation prepared));
       ActionExecutionResult.timestamp := now;
       ActionExecutionResult.outcome := None;
       ActionExecutionResult.notes := None |}
  else
    match ActionTemplate.urgency action with
    | Some critical | Some high =>
        {| ActionExecutionResult.actionId := ActionTemplate.id action;
           ActionExecutionResult.status := pending;
           ActionExecutionResult.message :=
             Some "Action prepared for execution. Follow the steps provided.";
           ActionExecutionResult.timestamp := now;
           ActionExecutionResult.outcome := None;
           ActionExecutionResult.notes := None |}
    | _ =>
        {| ActionExecutionResult.actionId := ActionTemplate.id action;
           ActionExecutionResult.status := completed;
           ActionExecutionResult.message := Some "Action executed successfully";
           ActionExecutionResult.timestamp := now;
           ActionExecutionResult.outcome := None;
           ActionExecutionResult.notes := None |}
    end.

(** [urgencyOrder[a.urgency ?? 'medium']] *)
Definition urgencyOrder (urgency : ActionUrgency) : Z :=
  match urgency with
  | critical => 0
  | high => 1
  | medium => 2
  | low => 3
  end.

Definition urgencyRank (a : ActionTemplate.t) : Z :=
  urgencyOrder (default medium (ActionTemplate.urgency a)).

Definition byUrgency (a b : ActionTemplate.t) : Z :=
  let aUrgency := urgencyRank a in
  let bUrgency := urgencyRank b in
  aUrgency - bUrgency.

(** [sorted.map(f)] where the [i]-th call of [f] reads the clock for the
    [i]-th time. *)
Fixpoint mapWithClock {A B} (f : string -> A -> B) (clock : nat -> string)
  (i : nat) (xs : list A) : list B :=
  match xs with
  | [] => []
  | x :: rest => f (clock i) x :: mapWithClock f clock (S i) rest
  end.

(** [clock i] is the [i]-th reading of the system clock during the call. *)
Definition executeActions (clock : nat -> string)
  (actions : list ActionTemplate.t) (sessionState : SessionState.t)
  : list ActionExecutionResult.t :=
  let sortedActions := Js.sort byUrgency actions in
  mapWithClock (fun now action => executeAction now action sessionState)
               clock 0%nat sortedActions.

Definition getNextSteps (action : ActionTemplate.t) (outcomeId : string)
  : list string :=
  let outcome :=
    outcomes ← ActionTemplate.outcomes action;
    List.find (fun o => String.eqb (ActionOutcome.id o) outcomeId) outcomes in
  default [] (outcome ≫= ActionOutcome.nextActions).

Definition urgencyName (urgency : ActionUrgency) : string :=
  match urgency with
  | critical => "critical"
  | high => "high"
  | medium => "medium"
  | low => "low"
  end.

Definition formatInputField (f : ActionInputField.t) : string :=
  "   - " ++ default (ActionInputField.name f) (ActionInputField.label f)
  ++ (if Js.truthyBool (ActionInputField.required f) then " (required)" else "").

Definition formatStep (step : ActionStep.t) : string :=
  let stepText :=
    Js.numberToString (ActionStep.order step) ++ ". "
    ++ ActionStep.instruction step in
  if Js.truthyBool (ActionStep.requiresInput step) then
    match ActionStep.inputFields step with
    | Some inputFields =>
        let fields := Js.join Js.nl (List.map formatInputField inputFields) in
        stepText ++ Js.nl ++ fields
    | None => stepText
    end
  else stepText.

Definition byOrder (a b : ActionStep.t) : Z :=
  ActionStep.order a - ActionStep.order b.

Definition formatContactInfo (contactInfo : ActionContactInfo.t) : string :=
  Js.nl ++ "Contact Information:" ++ Js.nl
  ++ (match ActionContactInfo.phone contactInfo with
      | Some phone =>
          if Js.truthyString (Some phone)
          then "  Phone: " ++ phone ++ Js.nl else ""
      | None => ""
      end)
  ++ (match ActionContactInfo.email contactInfo with
      | Some email =>
          if Js.truthyString (Some email)
          then "  Email: " ++ email ++ Js.nl else ""
      | None => ""
      end)
  ++ (match ActionContactInfo.website contactInfo with
      | Some website =>
          if Js.truthyString (Some website)
          then "  Website: " ++ website ++ Js.nl else ""
      | None => ""
      end)
  ++ (match ActionContactInfo.hoursOfOperation contactInfo with
      | Some hours =>
          if Js.truthyString (Some hours)
          then "  Hours: " ++ hours ++ Js.nl else ""
      | None => ""
      end).

(** [formatActionSteps] returns a string; the second component is the
    [action] object as the call leaves it.  [action.steps.sort(...)] sorts
    the array that [action.steps] refers to, in place, so the caller's
    object holds the sorted array afterwards. *)
Definition formatActionSteps (action : ActionTemplate.t)
  : string * ActionTemplate.t :=
  match ActionTemplate.steps action with
  | None | Some [] =>
      (default "No steps available" (ActionTemplate.description action), action)
  | Some actionSteps =>
      let sortedInPlace := Js.sort byOrder actionSteps in
      let action' := ActionTemplate.withSteps action (Some sortedInPlace) in
      let steps := Js.join (Js.nl ++ Js.nl) (List.map formatStep sortedInPlace) in
      let formatted :=
        ActionTemplate.name action' ++ Js.nl
        ++ Js.repeat "=" (String.length (ActionTemplate.name action'))
        ++ Js.nl ++ Js.nl
        ++ (match ActionTemplate.description action' with
            | Some description =>
                if Js.truthyString (Some description)
                then description ++ Js.nl ++ Js.nl else ""
            | None => ""
            end)
        ++ (match ActionTemplate.urgency action' with
            | Some urgency =>
                "Urgency: " ++ Js.toUpperCase (urgencyName urgency)
                ++ Js.nl ++ Js.nl
            | None => ""
            end)
        ++ "Steps:" ++ Js.nl ++ steps ++ Js.nl
        ++ (match ActionTemplate.estimatedDuration action' with
            | Some estimatedDuration =>
                if Js.truthyString (Some estimatedDuration)
                then Js.nl ++ "Estimated Duration: " ++ estimatedDuration ++ Js.nl
                else ""
            | None => ""
            end)
        ++ (match ActionTemplate.contactInfo action' with
            | Some contactInfo => formatContactInfo contactInfo
            | None => ""
            end) in
      (formatted, action')
  end.

End ActionExecutor.

(** ** ContentPackLoader.ts *)

Module ContentPackLoader.

(** The one field of the class: [loadedPacks], keyed by whatever
    [packData.id] evaluates to ([None] being the key [undefined]).  The
    iteration order of the [Map] is not represented. *)
Record t : Type := {
  loadedPacks : gmap (option string) ContentPack.t
}.

(** [new ContentPackLoader()] *)
Definition create : t := {| loadedPacks := ∅ |}.

(** *** The regular expression [/^\d+\.\d+\.\d+$/]

    [\d] is one of the ten ASCII digits.  A digit run is followed by a
    full stop or by the end of the input, neither of which is a digit,
    so taking the longest run loses no match. *)
Definition isDigit (c : ascii) : bool :=
  let n := nat_of_ascii c in ((48 <=? n) && (n <=? 57))%nat.

Fixpoint skipDigits (s : string) : string :=
  match s with
  | EmptyString => EmptyString
  | String c rest => if isDigit c then skipDigits rest else s
  end.

(** [\d+]: the input after the longest non-empty digit run, if any. *)
Definition digitRun (s : string) : option string :=
  match s with
  | String c rest => if isDigit c then Some (skipDigits rest) else None
  | EmptyString => None
  end.

(** [\.]: the input after a full stop, if it starts with one. *)
Definition fullStop (s : string) : option string :=
  match s with
  | String c rest => if Ascii.eqb c "." then Some rest else None
  | EmptyString => None
  end.

(** [versionRegex.test(version)] *)
Definition versionRegexTest (version : string) : bool :=
  match
    afterMajor ← digitRun version;
    afterDot ← fullStop afterMajor;
    afterMinor ← digitRun afterDot;
    afterDot' ← fullStop afterMinor;
    digitRun afterDot'
  with
  | Some EmptyString => true
  | _ => false
  end.

(** The index of the first occurrence, as [Set.has] sees it while the
    loop of [checkDuplicateIds] runs: [ids] are the ids added so far. *)
Fixpoint collectDuplicates {A} `{HasId A} (items : list A) (ids : gset string)
  : list string :=
  match items with
  | [] => []
  | item :: rest =>
      let duplicates := collectDuplicates rest ({[ getId item ]} ∪ ids) in
      if bool_decide (getId item ∈ ids)
      then getId item :: duplicates
      else duplicates
  end.

Definition checkDuplicateIds {A} `{HasId A} (items : list A) (type : string)
  : Result unit :=
  let duplicates := collectDuplicates items ∅ in
  if (0 <? length duplicates)%nat then
    Throw ("Duplicate " ++ type ++ " IDs found in content pack: "
           ++ Js.join ", " duplicates)
  else Ok tt.

Definition validateContentPack (pack : ContentPack.t) : Result unit :=
  if negb (Js.truthyString (ContentPack.id pack)) then
    Throw "Content pack must have an id"
  else if negb (Js.truthyString (ContentPack.name pack)) then
    Throw "Content pack must have a name"
  else if negb (Js.truthyString (ContentPack.version pack)) then
    Throw "Content pack must have a version"
  else if negb (Js.truthyString (ContentPack.jurisdiction pack)) then
    Throw "Content pack must have a jurisdiction"
  else if negb (versionRegexTest
                  (default "undefined" (ContentPack.version pack))) then
    Throw "Content pack version must follow semantic versioning (e.g., 1.0.0)"
  else
    do checkDuplicateIds (default [] (ContentPack.questions pack)) "questions" then
    do checkDuplicateIds (default [] (ContentPack.rules pack)) "rules" then
    do checkDuplicateIds (default [] (ContentPack.actions pack)) "actions" then
    checkDuplicateIds (default [] (ContentPack.services pack)) "services".

(** A method that may throw returns its outcome together with the loader
    as the call leaves it. *)
Definition loadContentPack (packData : ContentPack.t) (self : t)
  : Result unit * t :=
  match validateContentPack packData with
  | Throw e => (Throw e, self)
  | Ok _ =>
      (Ok tt,
       {| loadedPacks :=
            <[ ContentPack.id packData := packData ]> (loadedPacks self) |})
  end.

(** What [await fetch(url)] followed by [await response.json()] can give. *)
Inductive Fetched : Type :=
| FetchRejected (reason : string)
| Response (ok : bool) (statusText : string) (json : Result ContentPack.t).

(** [fetched] is the outcome of the request for [url]. *)
Definition loadContentPackFromUrl (fetched : Fetched) (self : t)
  : Result ContentPack.t * t :=
  match fetched with
  | FetchRejected reason => (Throw reason, self)
  | Response ok statusText json =>
      if negb ok then
        (Throw ("Failed to load content pack: " ++ statusText), self)
      else
        match json with
        | Throw e => (Throw e, self)
        | Ok packData =>
            match loadContentPack packData self with
            | (Ok _, self') => (Ok packData, self')
            | (Throw e, self') => (Throw e, self')
            end
        end
  end.

Definition getContentPack (self : t) (packId : string) : option ContentPack.t :=
  loadedPacks self !! Some packId.

Definition getAllContentPacks (self : t) : list ContentPack.t :=
  List.map snd (map_to_list (loadedPacks self)).

Definition findByJurisdiction (self : t) (jurisdiction : string)
  : list ContentPack.t :=
  List.filter
    (fun pack => bool_decide (ContentPack.jurisdiction pack = Some jurisdiction))
    (getAllContentPacks self).

Definition getRules (self : t) (packId : string) : list RightRule.t :=
  let pack := getContentPack self packId in
  default [] (pack ≫= ContentPack.rules).

Definition getActions (self : t) (packId : string) : list ActionTemplate.t :=
  let pack := getContentPack self packId in
  default [] (pack ≫= ContentPack.actions).

Definition getAction (self : t) (packId actionId : string)
  : option ActionTemplate.t :=
  let actions := getActions self packId in
  List.find (fun action => String.eqb (ActionTemplate.id action) actionId) actions.

Definition getServices (self : t) (packId : string) : list Service.t :=
  let pack := getContentPack self packId in
  default [] (pack ≫= ContentPack.services).

Definition getService (self : t) (packId serviceId : string) : option Service.t :=
  let services := getServices self packId in
  List.find (fun service => String.eqb (Service.id service) serviceId) services.

Definition getQuestions (self : t) (packId : string) : list Question.t :=
  let pack := getContentPack self packId in
  default [] (pack ≫= ContentPack.questions).

Definition getQuestion (self : t) (packId questionId : string)
  : option Question.t :=
  let questions := getQuestions self packId in
  List.find (fun question => String.eqb (Question.id question) questionId)
            questions.

Definition getEntryPoint (self : t) (packId : string) : option Question.t :=
  let pack := getContentPack self packId in
  match pack ≫= ContentPack.entryPoint with
  | Some entryPoint =>
      if Js.truthyString (Some entryPoint)
      then getQuestion self packId entryPoint
      else None
  | None => None
  end.

Definition findServicesByType (self : t) (packId type : string) : list Service.t :=
  let services := getServices self packId in
  List.filter (fun service => String.eqb (Service.type service) type) services.

Definition findPetFriendlyServices (self : t) (packId : string) : list Service.t :=
  let services := getServices self packId in
  List.filter
    (fun service =>
       bool_decide (Service.eligibility service ≫= Service.acceptsPets = Some true))
    services.

Definition find24_7Services (self : t) (packId : string) : list Service.t :=
  let services := getServices self packId in
  List.filter
    (fun service =>
       bool_decide
         (Service.availability service ≫= Service.isAvailable24_7 = Some true))
    services.

Definition clearAll (self : t) : t := {| loadedPacks := ∅ |}.

(** [Map.delete] answers whether the key was present. *)
Definition removeContentPack (packId : string) (self : t) : bool * t :=
  (bool_decide (is_Some (loadedPacks self !! Some packId)),
   {| loadedPacks := delete (Some packId) (loadedPacks self) |}).

(** *** Calls

    One constructor per public method, and the loader each call leaves
    behind. *)
Inductive Call : Type :=
| CallLoadContentPack (packData : ContentPack.t)
| CallLoadContentPackFromUrl (fetched : Fetched)
| CallGetContentPack (packId : string)
| CallGetAllContentPacks
| CallFindByJurisdiction (jurisdiction : string)
| CallGetRules (packId : string)
| CallGetActions (packId : string)
| CallGetAction (packId actionId : string)
| CallGetServices (packId : string)
| CallGetService (packId serviceId : string)
| CallGetQuestions (packId : string)
| CallGetQuestion (packId questionId : string)
| CallGetEntryPoint (packId : string)
| CallFindServicesByType (packId type : string)
| CallFindPetFriendlyServices (packId : string)
| CallFind24_7Services (packId : string)
| CallClearAll
| CallRemoveContentPack (packId : string).

Definition after (call : Call) (self : t) : t :=
  match call with
  | CallLoadContentPack packData => snd (loadContentPack packData self)
  | CallLoadContentPackFromUrl fetched => snd (loadContentPackFromUrl fetched self)
  | CallClearAll => clearAll self
  | CallRemoveContentPack packId => snd (removeContentPack packId self)
  | CallGetContentPack _ | CallGetAllContentPacks | CallFindByJurisdiction _
  | CallGetRules _ | CallGetActions _ | CallGetAction _ _ | CallGetServices _
  | CallGetService _ _ | CallGetQuestions _ | CallGetQuestion _ _
  | CallGetEntryPoint _ | CallFindServicesByType _ _
  | CallFindPetFriendlyServices _ | CallFind24_7Services _ => self
  end.

Definition afterAll (calls : list Call) (self : t) : t :=
  fold_left (fun loader call => after call loader) calls self.

End ContentPackLoader.

(** ** components/EngineDemo.tsx: [loadContentPackAndEvaluate] *)

Module EngineDemo.

(** The four [useState] cells of the component. *)
Record t : Type := {
  isLoaded : bool;
  error : option string;
  matchedRules : list RightRule.t;
  triggeredActions : list ActionTemplate.t
}.

(** The component as it is mounted. *)
Definition initial : t :=
  {| isLoaded := false; error := None;
     matchedRules := []; triggeredActions := [] |}.

Definition packId : string := "england-wales-london-rough-sleeping".

(** The example session of the demo; [now] is what
    [new Date().toISOString()] returns. *)
Definition exampleSession (now : string) : Js.value :=
  Js.VObject
    [("sessionId", Js.VString "demo-session-001");
     ("createdAt", Js.VString now);
     ("status", Js.VString "active");
     ("user",
      Js.VObject
        [("age", Js.VNumber 32);
         ("hasChildren", Js.VBool false);
         ("hasPets", Js.VBool true);
         ("pets",
          Js.VArray
            [Js.VObject [("type", Js.VString "dog");
                         ("size", Js.VString "medium")]]);
         ("hasLocalConnection", Js.VBool true)]);
     ("situation",
      Js.VObject
        [("homelessTonight", Js.VBool true);
         ("currentLocation", Js.VString "Waterloo Station, London");
         ("isHomeless", Js.VBool true);
         ("roughSleeping", Js.VBool true);
         ("urgentNeeds",
          Js.VArray [Js.VString "shelter"; Js.VString "safety"])]);
     ("legal",
      Js.VObject
        [("rightToReside", Js.VBool true);
         ("hasPriorityNeed", Js.VBool false)]);
     ("metadata",
      Js.VObject
        [("contentPackId", Js.VString packId);
         ("jurisdiction", Js.VString "England/Wales")])].

(** [xs.filter(x => x !== undefined)] *)
Fixpoint defined {A} (xs : list (option A)) : list A :=
  match xs with
  | [] => []
  | Some x :: rest => x :: defined rest
  | None :: rest => defined rest
  end.

(** The [catch]: [setError(err.message)], the other cells untouched. *)
Definition failed (message : string) (component : t) : t :=
  {| isLoaded := isLoaded component;
     error := Some message;
     matchedRules := matchedRules component;
     triggeredActions := triggeredActions component |}.

(** [fetched] is the outcome of the request for the pack's URL, [loader]
    the shared [contentPackLoader]; the result is the component and the
    loader as the call leaves them. *)
Definition loadContentPackAndEvaluate (inherited : Js.prototypeChain)
  (fetched : ContentPackLoader.Fetched) (now : string)
  (loader : ContentPackLoader.t) (component : t)
  : t * ContentPackLoader.t :=
  match ContentPackLoader.loadContentPackFromUrl fetched loader with
  | (Throw message, loader') => (failed message component, loader')
  | (Ok _, loader') =>
      match ContentPackLoader.getContentPack loader' packId with
      | None => (failed "Failed to load content pack" component, loader')
      | Some pack =>
          let exampleSession := exampleSession now in
          let rules := ContentPackLoader.getRules loader' packId in
          let matched :=
            RuleEvaluator.evaluateRules inherited rules exampleSession in
          let actionIds := List.flat_map RightRule.actions matched in
          let actions :=
            defined
              (List.map (fun id => ContentPackLoader.getAction loader' packId id)
                        actionIds) in
          ({| isLoaded := true;
              error := error component;
              matchedRules := matched;
              triggeredActions := actions |},
           loader')
      end
  end.

End EngineDemo.

(** * Vocabulary of the properties *)

(** An object or an array has the member [key] when [key] is one of its
    own members (a binding of the object; ["length"] or an index of the
    array) or is found on its prototype chain.  Anything else has no
    members to walk into. *)
Definition hasMember (inherited : Js.prototypeChain) (key : string)
  (v : Js.value) : bool :=
  match v with
  | Js.VObject _ | Js.VArray _ =>
      bool_decide (is_Some (Js.ownProperty v key))
      || bool_decide (is_Some (inherited v key))
  | _ => false
  end.

(** A rule's priority, an absent one counting as 0. *)
Definition effectivePriority (rule : RightRule.t) : Z :=
  default 0 (RightRule.priority rule).

(** Ascending order of a key, and the elements that carry a given key. *)
Definition keyLe {A} (key : A -> Z) (a b : A) : Prop := key a <= key b.
Definition hasKey {A} (key : A -> Z) (k : Z) (a : A) : bool := key a =? k.

(** A non-empty run of ASCII digits. *)
Fixpoint allDigits (s : string) : bool :=
  match s with
  | EmptyString => true
  | String c rest => ContentPackLoader.isDigit c && allDigits rest
  end.

Definition digits (s : string) : Prop :=
  s <> EmptyString /\ allDigits s = true.

(** A string matches [\d+\.\d+\.\d+] exactly: three digit runs joined by
    full stops, nothing before, between or after. *)
Definition matchesSemVer (version : string) : Prop :=
  exists major minor patch,
    version = major ++ "." ++ minor ++ "." ++ patch
    /\ digits major /\ digits minor /\ digits patch.

(** A member that is present and not the empty string. *)
Definition nonEmpty (member : option string) : Prop :=
  exists s, member = Some s /\ s <> EmptyString.

(** No two items of a collection share an id; an absent collection has
    no items. *)
Definition distinctIds {A} `{HasId A} (items : option (list A)) : Prop :=
  NoDup (List.map getId (default [] items)).

(** The validation predicate on content packs. *)
Definition validContentPack (pack : ContentPack.t) : Prop :=
  nonEmpty (ContentPack.id pack)
  /\ nonEmpty (ContentPack.name pack)
  /\ nonEmpty (ContentPack.version pack)
  /\ nonEmpty (ContentPack.jurisdiction pack)
  /\ (exists version,
        ContentPack.version pack = Some version /\ matchesSemVer version)
  /\ distinctIds (ContentPack.questions pack)
  /\ distinctIds (ContentPack.rules pack)
  /\ distinctIds (ContentPack.actions pack)
  /\ distinctIds (ContentPack.services pack).

(** An error message that says which check failed. *)
Definition describesFailure (message : string) : Prop :=
  In message
     ["Content pack must have an id";
      "Content pack must have a name";
      "Content pack must have a version";
      "Content pack must have a jurisdiction";
      "Content pack version must follow semantic versioning (e.g., 1.0.0)"]
  \/ exists type duplicates,
       In type ["questions"; "rules"; "actions"; "services"]
       /\ duplicates <> []
       /\ message = "Duplicate " ++ type ++ " IDs found in content pack: "
                    ++ Js.join ", " duplicates.

(** Every pack the loader can hand out, by id or in the list of all
    packs, is valid. *)
Definition packsValid (self : ContentPackLoader.t) : Prop :=
  (forall packId pack,
     ContentPackLoader.getContentPack self packId = Some pack ->
     validContentPack pack)
  /\ (forall pack,
        In pack (ContentPackLoader.getAllContentPacks self) ->
        validContentPack pack).

(** The input starts with a digit, so a digit run before it would go on. *)
Definition startsWithDigit (s : string) : bool :=
  match s with
  | String c _ => ContentPackLoader.isDigit c
  | EmptyString => false
  end.

(** The same, said of the map itself: every value of [loadedPacks] is
    valid. *)
Definition allValid (self : ContentPackLoader.t) : Prop :=
  forall key pack,
    ContentPackLoader.loadedPacks self !! key = Some pack -> validContentPack pack.

(** The outcome of an atomic condition and of a condition group as a
    boolean, an exception counting as [false]. *)
Definition ruleHolds (inherited : Js.prototypeChain)
  (sessionState : Js.value) (rule : RightRuleConditionRule.t) : bool :=
  match RuleEvaluator.evaluateConditionRule inherited rule sessionState with
  | Ok b => b
  | Throw _ => false
  end.

Definition groupHolds (inherited : Js.prototypeChain)
  (sessionState : Js.value) (group : RightRuleConditions.t) : bool :=
  match RuleEvaluator.evaluateConditions inherited group sessionState with
  | Ok b => b
  | Throw _ => false
  end.

(** A group asserts something: it has a rule or a nested group. *)
Definition assertsSomething
  (rules : option (list RightRuleConditionRule.t))
  (nested : option (list RightRuleConditions.t)) : Prop :=
  default [] rules <> [] \/ default [] nested <> [].

(** How often an id occurs in a list of ids. *)
Definition occurrences (x : string) (ids : list string) : nat :=
  length (List.filter (String.eqb x) ids).

(** The session state after further actions have been recorded as
    completed: the same state with another [completedActions] list. *)
Definition withCompletedActions (sessionState : SessionState.t)
  (completed : list SessionState.completedAction_t) : SessionState.t :=
  {| SessionState.sessionId := SessionState.sessionId sessionState;
     SessionState.createdAt := SessionState.createdAt sessionState;
     SessionState.user := SessionState.user sessionState;
     SessionState.situation := SessionState.situation sessionState;
     SessionState.completedActions := Some completed;
     SessionState.pendingActions := SessionState.pendingActions sessionState |}.

(** Every pack of [loadedPacks] sits under its own id. *)
Definition keyedById (self : ContentPackLoader.t) : Prop :=
  forall key pack,
    ContentPackLoader.loadedPacks self !! key = Some pack ->
    ContentPack.id pack = key.

(** The place of an action's urgency in the order critical, high,
    medium, low, written out from that order alone; an absent urgency
    takes the place of medium. *)
Definition urgencyPlace (urgency : option ActionUrgency) : nat :=
  match urgency with
  | Some critical => 0
  | Some high => 1
  | Some medium => 2
  | None => 2
  | Some low => 3
  end.

(** * Sample data *)

(** A session state that has [user] and [legal] but no [situation]. *)
Definition stateWithoutSituation : Js.value :=
  Js.VObject
    [("sessionId", Js.VString "s-1");
     ("user", Js.VObject [("hasChildren", Js.VBool true)]);
     ("legal", Js.VNull)].

(** A prototype chain on which every object finds [toString]. *)
Definition objectsInheritToString : Js.prototypeChain :=
  fun v key =>
    match v with
    | Js.VObject _ =>
        if String.eqb key "toString" then Some (Js.VFunction "toString") else None
    | _ => None
    end.

(** An atomic condition that holds of [stateWithoutSituation] and one
    that does not. *)
Definition userHasChildren : RightRuleConditionRule.t :=
  {| RightRuleConditionRule.field := "user.hasChildren";
     RightRuleConditionRule.operator := equals;
     RightRuleConditionRule.value := Js.VBool true |}.

Definition homelessTonight : RightRuleConditionRule.t :=
  {| RightRuleConditionRule.field := "situation.homelessTonight";
     RightRuleConditionRule.operator := equals;
     RightRuleConditionRule.value := Js.VBool true |}.

(** A rule that matches [stateWithoutSituation], with the priority given. *)
Definition sampleRule (id : string) (priority : option Z) : RightRule.t :=
  {| RightRule.id := id;
     RightRule.name := id;
     RightRule.description := None;
     RightRule.jurisdiction := "England";
     RightRule.legalBasis := None;
     RightRule.priority := priority;
     RightRule.conditions :=
       RightRuleConditions.make type_all (Some [userHasChildren]) None;
     RightRule.actions := ["act-" ++ id] |}.

(** A session with a location and one completed action. *)
Definition sampleSession : SessionState.t :=
  {| SessionState.sessionId := "s-1";
     SessionState.createdAt := "2024-01-01T00:00:00.000Z";
     SessionState.user := None;
     SessionState.situation :=
       Some {| SessionState.homelessTonight := Some true;
               SessionState.currentLocation := Some "Leeds" |};
     SessionState.completedActions :=
       Some [{| SessionState.actionId := "register";
                SessionState.completedAt := "2024-01-01T00:10:00.000Z";
                SessionState.outcome := None |}];
     SessionState.pendingActions := None |}.

Definition sampleStep (order : Z) (instruction : string) : ActionStep.t :=
  {| ActionStep.order := order;
     ActionStep.instruction := instruction;
     ActionStep.requiresInput := None;
     ActionStep.inputFields := None |}.

(** An action whose two steps are listed second step first. *)
Definition sampleAction (id : string) (urgency : option ActionUrgency)
  (requiredInformation : option (list string)) : ActionTemplate.t :=
  {| ActionTemplate.id := id;
     ActionTemplate.name := "Call the council";
     ActionTemplate.description := None;
     ActionTemplate.type := immediate;
     ActionTemplate.category := housing;
     ActionTemplate.urgency := urgency;
     ActionTemplate.steps :=
       Some [sampleStep 2 "Ask for the homelessness team";
             sampleStep 1 "Dial the out-of-hours number"];
     ActionTemplate.requiredInformation := requiredInformation;
     ActionTemplate.estimatedDuration := None;
     ActionTemplate.contactInfo := None;
     ActionTemplate.prerequisites := Some ["register"];
     ActionTemplate.relatedServices := None;
     ActionTemplate.outcomes := None |}.

Definition samplePack (id : string) (version : option string)
  (actions : list ActionTemplate.t) : ContentPack.t :=
  {| ContentPack.id := Some id;
     ContentPack.name := Some "England housing pack";
     ContentPack.description := None;
     ContentPack.version := version;
     ContentPack.jurisdiction := Some "England";
     ContentPack.entryPoint := None;
     ContentPack.questions := None;
     ContentPack.rules := Some [sampleRule "r1" None];
     ContentPack.actions := Some actions;
     ContentPack.services := None |}.

Definition twoActionsNamedA1 : list ActionTemplate.t :=
  [sampleAction "a1" None None; sampleAction "a1" (Some high) None].

(** A loader that already holds one pack. *)
Definition loaderWithOnePack : ContentPackLoader.t :=
  snd (ContentPackLoader.loadContentPack
         (samplePack "england" (Some "1.0.0") [sampleAction "a1" None None])
         ContentPackLoader.create).

(** * Properties *)

(** ** Lists and sorting *)

Lemma filter_filter_comm {A} (f g : A -> bool) (l : list A) :
  List.filter f (List.filter g l) = List.filter g (List.filter f l).
Proof.
  induction l as [|x l IH]; simpl; [reflexivity|].
  destruct (g x) eqn:Hg, (f x) eqn:Hf; simpl; rewrite ?Hg, ?Hf, IH; reflexivity.
Qed.

Lemma filter_Permutation_compat {A} (f : A -> bool) (l l' : list A) :
  Permutation l l' -> Permutation (List.filter f l) (List.filter f l').
Proof.
  induction 1 as [|x l l' _ IH|x y l|l l' l'' _ IH1 _ IH2]; simpl.
  - constructor.
  - destruct (f x); [constructor|]; exact IH.
  - destruct (f x), (f y); try reflexivity. apply perm_swap.
  - etransitivity; eassumption.
Qed.

Lemma filter_StronglySorted {A} (R : A -> A -> Prop) (f : A -> bool) (l : list A) :
  StronglySorted R l -> StronglySorted R (List.filter f l).
Proof.
  induction 1 as [|x l Hs IH Hall]; simpl; [constructor|].
  destruct (f x); [|exact IH].
  constructor; [exact IH|].
  rewrite Forall_forall in *. intros y Hy.
  apply list_elem_of_In, filter_In in Hy. apply Hall, list_elem_of_In, Hy.
Qed.

Lemma StronglySorted_weaken {A} (R R' : A -> A -> Prop) (l : list A) :
  (forall a b, R a b -> R' a b) -> StronglySorted R l -> StronglySorted R' l.
Proof.
  intros Himp. induction 1 as [|x l Hs IH Hall]; constructor; [exact IH|].
  eapply Forall_impl; [exact Hall|]. intros y. apply Himp.
Qed.

(** [Js.sort] with a comparator that subtracts two keys: the result is a
    rearrangement of the input, ascending in the key, and elements with
    the same key stay in their input order. *)
Section SortByKey.
Context {A : Type} (key : A -> Z) (comparefn : A -> A -> Z).
Hypothesis comparefn_key : forall a b, comparefn a b = key a - key b.

Lemma insertSorted_Permutation x l :
  Permutation (Js.insertSorted comparefn x l) (x :: l).
Proof.
  induction l as [|y l IH]; simpl; [reflexivity|].
  destruct (comparefn x y <=? 0); [reflexivity|].
  rewrite IH. apply perm_swap.
Qed.

Lemma sort_Permutation l : Permutation (Js.sort comparefn l) l.
Proof.
  induction l as [|x l IH]; simpl; [constructor|].
  rewrite insertSorted_Permutation. constructor. exact IH.
Qed.

Lemma insertSorted_StronglySorted x l :
  StronglySorted (keyLe key) l ->
  StronglySorted (keyLe key) (Js.insertSorted comparefn x l).
Proof.
  induction 1 as [|y l Hs IH Hall]; simpl.
  - repeat constructor.
  - destruct (comparefn x y <=? 0) eqn:Hc.
    + apply Z.leb_le in Hc. rewrite comparefn_key in Hc.
      constructor; [constructor; assumption|].
      constructor; [unfold keyLe; lia|].
      eapply Forall_impl; [exact Hall|].
      unfold keyLe. intros z Hz. lia.
    + apply Z.leb_gt in Hc. rewrite comparefn_key in Hc.
      constructor; [exact IH|].
      eapply Permutation_Forall.
      * symmetry. apply insertSorted_Permutation.
      * constructor; [unfold keyLe; lia | exact Hall].
Qed.

Lemma sort_StronglySorted l : StronglySorted (keyLe key) (Js.sort comparefn l).
Proof.
  induction l as [|x l IH]; simpl; [constructor|].
  apply insertSorted_StronglySorted, IH.
Qed.

Lemma insertSorted_stable k x l :
  List.filter (hasKey key k) (Js.insertSorted comparefn x l)
  = List.filter (hasKey key k) (x :: l).
Proof.
  induction l as [|y l IH]; [reflexivity|].
  cbn [Js.insertSorted].
  destruct (comparefn x y <=? 0) eqn:Hc; [reflexivity|].
  apply Z.leb_gt in Hc. rewrite comparefn_key in Hc.
  cbn [List.filter] in *. rewrite IH. unfold hasKey.
  destruct (key x =? k) eqn:Hx, (key y =? k) eqn:Hy; try reflexivity.
  apply Z.eqb_eq in Hx, Hy. lia.
Qed.

Lemma sort_stable k l :
  List.filter (hasKey key k) (Js.sort comparefn l) = List.filter (hasKey key k) l.
Proof.
  induction l as [|x l IH]; [reflexivity|].
  cbn [Js.sort]. rewrite insertSorted_stable. cbn [List.filter].
  rewrite IH. reflexivity.
Qed.

Lemma sort_of_sorted l :
  StronglySorted (keyLe key) l -> Js.sort comparefn l = l.
Proof.
  induction 1 as [|x l Hs IH Hall]; [reflexivity|].
  cbn [Js.sort]. rewrite IH.
  destruct Hall as [|y l' Hxy _]; [reflexivity|].
  cbn [Js.insertSorted]. rewrite comparefn_key.
  unfold keyLe in Hxy.
  destruct (Z.leb_spec (key x - key y) 0); [reflexivity | lia].
Qed.

End SortByKey.

(** ** RuleEvaluator: field resolution *)

Section FieldResolution.
Context (inherited : Js.prototypeChain).

(** The guard of the loop, [value && typeof value === 'object' && part in
    value], never reaches [in] with a non-object, so it is the membership
    test and nothing else. *)
Lemma walkPath_guard part current :
  (if Js.truthy current && Js.typeTag_eqb (Js.typeof current) Js.TObject
   then Js.hasProperty inherited part current
   else Ok false) = Ok (hasMember inherited part current).
Proof.
  destruct current; cbn [Js.truthy Js.typeof Js.typeTag_eqb hasMember];
    rewrite ?andb_false_r; reflexivity.
Qed.

Lemma getProperty_of_member part current :
  hasMember inherited part current = true ->
  returns (Js.getProperty inherited current part).
Proof.
  destruct current; cbn [hasMember]; try discriminate; intros _;
    unfold Js.getProperty;
    match goal with
    | |- returns (match ?own with _ => _ end) =>
        destruct own; eexists; reflexivity
    end.
Qed.

Lemma walkPath_step part rest current :
  RuleEvaluator.walkPath inherited (part :: rest) current
  = if hasMember inherited part current
    then let* next := Js.getProperty inherited current part in
         RuleEvaluator.walkPath inherited rest next
    else Ok Js.VUndefined.
Proof. cbn [RuleEvaluator.walkPath]. rewrite walkPath_guard. reflexivity. Qed.

Lemma walkPath_returns parts :
  forall current, returns (RuleEvaluator.walkPath inherited parts current).
Proof.
  induction parts as [|part rest IH]; intros current.
  - eexists; reflexivity.
  - rewrite walkPath_step. destruct (hasMember inherited part current) eqn:Hm.
    + destruct (getProperty_of_member _ _ Hm) as [next ->]. apply IH.
    + eexists; reflexivity.
Qed.

Lemma walkPath_missing pre part post :
  forall current v,
    RuleEvaluator.walkPath inherited pre current = Ok v ->
    hasMember inherited part v = false ->
    RuleEvaluator.walkPath inherited (pre ++ part :: post) current
    = Ok Js.VUndefined.
Proof.
  induction pre as [|p pre IH]; intros current v Hpre Hmiss.
  - injection Hpre as <-. cbn [app]. rewrite walkPath_step, Hmiss. reflexivity.
  - change ((p :: pre) ++ part :: post)%list with (p :: (pre ++ part :: post))%list.
    rewrite walkPath_step in *.
    destruct (hasMember inherited p current); [|reflexivity].
    destruct (Js.getProperty inherited current p) as [next|e]; [|discriminate].
    cbn [bind] in *. eapply IH; eassumption.
Qed.

Lemma getFieldValue_returns path sessionState :
  returns (RuleEvaluator.getFieldValue inherited path sessionState).
Proof. apply walkPath_returns. Qed.

Lemma evaluateConditionRule_returns rule sessionState :
  returns (RuleEvaluator.evaluateConditionRule inherited rule sessionState).
Proof.
  unfold RuleEvaluator.evaluateConditionRule.
  destruct (getFieldValue_returns (RightRuleConditionRule.field rule) sessionState)
    as [fieldValue ->].
  cbn [bind].
  destruct (RightRuleConditionRule.operator rule);
    try (eexists; reflexivity).
  - destruct fieldValue, (RightRuleConditionRule.value rule); eexists; reflexivity.
  - destruct fieldValue, (RightRuleConditionRule.value rule); eexists; reflexivity.
  - destruct (RightRuleConditionRule.value rule); eexists; reflexivity.
  - destruct (RightRuleConditionRule.value rule); eexists; reflexivity.
Qed.

End FieldResolution.

(** C3.  Field resolution is total and tolerant: [getFieldValue] returns
    for every path and every session state; when some segment of the path
    is not a member of the value reached so far, what it returns is
    [undefined]; an atomic condition therefore always evaluates to a
    boolean; and [situation.homelessTonight equals true] against a state
    with no [situation] member evaluates to [false]. *)
Theorem getFieldValue_total_missing_undefined
  (inherited : Js.prototypeChain) (path : string) (sessionState : Js.value) :
  returns (RuleEvaluator.getFieldValue inherited path sessionState)
  /\ (forall pre part post v,
        Js.split "." path = (pre ++ part :: post)%list ->
        RuleEvaluator.walkPath inherited pre sessionState = Ok v ->
        hasMember inherited part v = false ->
        RuleEvaluator.getFieldValue inherited path sessionState = Ok Js.VUndefined)
  /\ (forall rule,
        returns (RuleEvaluator.evaluateConditionRule inherited rule sessionState))
  /\ (hasMember inherited "situation" sessionState = false ->
      RuleEvaluator.evaluateConditionRule inherited
        {| RightRuleConditionRule.field := "situation.homelessTonight";
           RightRuleConditionRule.operator := equals;
           RightRuleConditionRule.value := Js.VBool true |}
        sessionState = Ok false).
Proof.
  split; [apply getFieldValue_returns|].
  split.
  { intros pre part post v Hsplit Hpre Hmiss.
    unfold RuleEvaluator.getFieldValue. rewrite Hsplit.
    eapply walkPath_missing; eassumption. }
  split; [intros rule; apply evaluateConditionRule_returns|].
  intros Hmiss.
  unfold RuleEvaluator.evaluateConditionRule, RuleEvaluator.getFieldValue.
  cbn [RightRuleConditionRule.field RightRuleConditionRule.operator
       RightRuleConditionRule.value].
  replace (Js.split "." "situation.homelessTonight")
    with ["situation"; "homelessTonight"] by reflexivity.
  rewrite walkPath_step, Hmiss. reflexivity.
Qed.

Lemma getFieldValue_total_missing_undefined_witness :
  RuleEvaluator.getFieldValue Js.noPrototype
    "legal.rightToReside" stateWithoutSituation
  = Ok Js.VUndefined
  /\ RuleEvaluator.getFieldValue Js.noPrototype
       "user.hasChildren.since" stateWithoutSituation
     = Ok Js.VUndefined
  /\ RuleEvaluator.evaluateConditionRule Js.noPrototype
       {| RightRuleConditionRule.field := "situation.homelessTonight";
          RightRuleConditionRule.operator := equals;
          RightRuleConditionRule.value := Js.VBool true |}
       stateWithoutSituation = Ok false.
Proof.
  split; [|split].
  - apply (proj1 (proj2 (getFieldValue_total_missing_undefined
                           Js.noPrototype
                           "legal.rightToReside" stateWithoutSituation))
             ["legal"] "rightToReside" [] Js.VNull); reflexivity.
  - apply (proj1 (proj2 (getFieldValue_total_missing_undefined
                           Js.noPrototype
                           "user.hasChildren.since" stateWithoutSituation))
             ["user"; "hasChildren"] "since" [] (Js.VBool true)); reflexivity.
  - apply (proj2 (proj2 (proj2 (getFieldValue_total_missing_undefined
                                  Js.noPrototype "" stateWithoutSituation)))).
    reflexivity.
Defined.

(** A segment found on the prototype chain is not missing: the walk reads
    the inherited method, and stops there, a function not being an
    ['object']. *)
Example getFieldValue_inherited_member :
  RuleEvaluator.getFieldValue objectsInheritToString
    "user.toString" stateWithoutSituation = Ok (Js.VFunction "toString")
  /\ RuleEvaluator.getFieldValue objectsInheritToString
       "user.toString.name" stateWithoutSituation = Ok Js.VUndefined
  /\ RuleEvaluator.getFieldValue Js.noPrototype
       "user.toString" stateWithoutSituation = Ok Js.VUndefined.
Proof. repeat split. Qed.

(** ** RuleEvaluator: condition groups *)

(** Induction over a condition tree: a group has the property as soon as
    its nested groups have it. *)
Section ConditionsInduction.
Variable P : RightRuleConditions.t -> Prop.
Hypothesis group_case :
  forall type rules nested,
    Forall P (default [] nested) ->
    P (RightRuleConditions.make type rules nested).

Fixpoint conditions_induction (c : RightRuleConditions.t) : P c :=
  match c with
  | RightRuleConditions.make type rules nested =>
      group_case type rules nested
        match nested return Forall P (default [] nested) with
        | None => @List.Forall_nil _ P
        | Some groups =>
            (fix all (groups : list RightRuleConditions.t) : Forall P groups :=
               match groups with
               | [] => @List.Forall_nil _ P
               | g :: more =>
                   @List.Forall_cons _ P g more (conditions_induction g) (all more)
               end) groups
        end
  end.
End ConditionsInduction.

Lemma mapResult_returns {A B} (f : A -> Result B) (xs : list A) :
  (forall x, returns (f x)) -> returns (RuleEvaluator.mapResult f xs).
Proof.
  intros Hf. induction xs as [|x xs [ys IH]]; simpl.
  - eexists; reflexivity.
  - destruct (Hf x) as [y ->]. cbn [bind]. rewrite IH. eexists; reflexivity.
Qed.

(** No condition tree throws: the [catch] of [evaluateRule] is never
    entered on session data. *)
Lemma evaluateConditions_returns (inherited : Js.prototypeChain)
  conditions sessionState :
  returns (RuleEvaluator.evaluateConditions inherited conditions sessionState).
Proof.
  induction conditions as [type rules nested IH] using conditions_induction.
  cbn [RuleEvaluator.evaluateConditions RightRuleConditions.rules
       RightRuleConditions.nested RightRuleConditions.type].
  destruct (mapResult_returns
              (fun rule =>
                 RuleEvaluator.evaluateConditionRule inherited rule sessionState)
              (default [] rules)) as [ruleResults ->].
  { intros rule. apply evaluateConditionRule_returns. }
  cbn [bind].
  match goal with
  | |- returns (bind ?m _) => assert (Hn : returns m)
  end.
  { destruct nested as [groups|]; [|eexists; reflexivity].
    change (Forall
              (fun c =>
                 returns (RuleEvaluator.evaluateConditions inherited c sessionState))
              groups) in IH.
    induction IH as [|g more [r Hg] _ [rs Hrs]]; [eexists; reflexivity|].
    rewrite Hg. cbn [bind]. rewrite Hrs. eexists; reflexivity. }
  destruct Hn as [nestedResults ->]. cbn [bind].
  destruct type; eexists; reflexivity.
Qed.

Lemma evaluateRule_true_iff (inherited : Js.prototypeChain) rule sessionState :
  RuleEvaluator.evaluateRule inherited rule sessionState = true
  <-> RuleEvaluator.evaluateConditions inherited
        (RightRule.conditions rule) sessionState = Ok true.
Proof.
  unfold RuleEvaluator.evaluateRule.
  destruct (RuleEvaluator.evaluateConditions inherited _ _) as [b|e].
  - split; [intros ->; reflexivity | intros [= ->]; reflexivity].
  - split; discriminate.
Qed.

(** C1.  A condition group with no rules and no nested groups (each list
    empty or absent) evaluates to [false], whatever its type: ['all'],
    ['any'], ['none'], or a string that is none of these. *)
Theorem evaluateConditions_empty_group
  (inherited : Js.prototypeChain)
  (type : LogicalOperator)
  (rules : option (list RightRuleConditionRule.t))
  (nested : option (list RightRuleConditions.t))
  (sessionState : Js.value) :
  default [] rules = [] ->
  default [] nested = [] ->
  RuleEvaluator.evaluateConditions inherited
    (RightRuleConditions.make type rules nested) sessionState = Ok false.
Proof.
  intros Hrules Hnested.
  destruct rules as [[|rule rules]|]; try discriminate Hrules;
    destruct nested as [[|group nested]|]; try discriminate Hnested;
    destruct type; reflexivity.
Qed.

Lemma evaluateConditions_empty_group_witness :
  RuleEvaluator.evaluateConditions Js.noPrototype
    (RightRuleConditions.make type_all (Some []) (Some []))
    stateWithoutSituation = Ok false
  /\ RuleEvaluator.evaluateConditions Js.noPrototype
       (RightRuleConditions.make type_any None (Some []))
       stateWithoutSituation = Ok false
  /\ RuleEvaluator.evaluateConditions Js.noPrototype
       (RightRuleConditions.make type_none (Some []) None)
       stateWithoutSituation = Ok false.
Proof.
  split; [|split];
    apply (evaluateConditions_empty_group Js.noPrototype _ _ _
             stateWithoutSituation);
    reflexivity.
Defined.

(** The three operators on groups that do assert something. *)
Example evaluateConditions_nonempty_groups :
  let eval type rules :=
    RuleEvaluator.evaluateConditions Js.noPrototype
      (RightRuleConditions.make type (Some rules) None) stateWithoutSituation in
  eval type_all [userHasChildren] = Ok true
  /\ eval type_all [userHasChildren; homelessTonight] = Ok false
  /\ eval type_any [homelessTonight; userHasChildren] = Ok true
  /\ eval type_none [homelessTonight] = Ok true
  /\ eval type_none [homelessTonight; userHasChildren] = Ok false.
Proof. repeat split. Qed.

(** ** RuleEvaluator: the operators [in], [notIn], [exists], [notExists] *)

(** C8.  When the rule's [value] is not an array, [in] evaluates to
    [false] and so does [notIn]: on such a rule [notIn] is not the
    negation of [in]. *)
Theorem in_and_notIn_false_without_array
  (inherited : Js.prototypeChain)
  (field : string) (value sessionState : Js.value) :
  Js.isArray value = false ->
  let evaluate operator :=
    RuleEvaluator.evaluateConditionRule inherited
      {| RightRuleConditionRule.field := field;
         RightRuleConditionRule.operator := operator;
         RightRuleConditionRule.value := value |} sessionState in
  evaluate op_in = Ok false
  /\ evaluate notIn = Ok false
  /\ (forall b, evaluate op_in = Ok b -> evaluate notIn <> Ok (negb b)).
Proof.
  intros Hvalue evaluate. subst evaluate.
  unfold RuleEvaluator.evaluateConditionRule.
  cbn [RightRuleConditionRule.field RightRuleConditionRule.operator
       RightRuleConditionRule.value].
  destruct (getFieldValue_returns inherited field sessionState) as [fieldValue ->].
  cbn [bind].
  destruct value; try discriminate Hvalue;
    (split; [reflexivity|split; [reflexivity|]]);
    intros ? [= <-]; discriminate.
Qed.

Lemma in_and_notIn_false_without_array_witness :
  RuleEvaluator.evaluateConditionRule Js.noPrototype
    {| RightRuleConditionRule.field := "user.hasChildren";
       RightRuleConditionRule.operator := op_in;
       RightRuleConditionRule.value := Js.VBool true |}
    stateWithoutSituation = Ok false
  /\ RuleEvaluator.evaluateConditionRule Js.noPrototype
       {| RightRuleConditionRule.field := "user.hasChildren";
          RightRuleConditionRule.operator := notIn;
          RightRuleConditionRule.value := Js.VBool true |}
       stateWithoutSituation = Ok false.
Proof.
  pose proof (in_and_notIn_false_without_array Js.noPrototype
                "user.hasChildren" (Js.VBool true) stateWithoutSituation
                eq_refl) as [Hin [HnotIn _]].
  split; [exact Hin | exact HnotIn].
Defined.

(** With an array the two operators are each other's negation. *)
Lemma notIn_negates_in_with_array (inherited : Js.prototypeChain)
  field elems sessionState b :
  RuleEvaluator.evaluateConditionRule inherited
    {| RightRuleConditionRule.field := field;
       RightRuleConditionRule.operator := op_in;
       RightRuleConditionRule.value := Js.VArray elems |} sessionState = Ok b ->
  RuleEvaluator.evaluateConditionRule inherited
    {| RightRuleConditionRule.field := field;
       RightRuleConditionRule.operator := notIn;
       RightRuleConditionRule.value := Js.VArray elems |} sessionState
  = Ok (negb b).
Proof.
  unfold RuleEvaluator.evaluateConditionRule.
  cbn [RightRuleConditionRule.field RightRuleConditionRule.operator
       RightRuleConditionRule.value].
  destruct (getFieldValue_returns inherited field sessionState) as [fieldValue ->].
  cbn [bind]. intros [= <-]. reflexivity.
Qed.

(** C10.  [exists] holds exactly when the resolved field value is neither
    [undefined] nor [null], and [notExists] is its negation, whatever
    [value] either rule carries. *)
Theorem exists_notExists_semantics
  (inherited : Js.prototypeChain)
  (field : string) (value value' sessionState : Js.value) :
  exists fieldValue b,
    RuleEvaluator.getFieldValue inherited field sessionState = Ok fieldValue
    /\ RuleEvaluator.evaluateConditionRule inherited
         {| RightRuleConditionRule.field := field;
            RightRuleConditionRule.operator := op_exists;
            RightRuleConditionRule.value := value |} sessionState = Ok b
    /\ (b = true <-> fieldValue <> Js.VUndefined /\ fieldValue <> Js.VNull)
    /\ RuleEvaluator.evaluateConditionRule inherited
         {| RightRuleConditionRule.field := field;
            RightRuleConditionRule.operator := notExists;
            RightRuleConditionRule.value := value' |} sessionState
       = Ok (negb b).
Proof.
  unfold RuleEvaluator.evaluateConditionRule.
  cbn [RightRuleConditionRule.field RightRuleConditionRule.operator
       RightRuleConditionRule.value].
  destruct (getFieldValue_returns inherited field sessionState) as [fieldValue ->].
  cbn [bind]. exists fieldValue. eexists.
  split; [reflexivity|]. split; [reflexivity|].
  destruct fieldValue; cbn; (split; [split|reflexivity]);
    try discriminate; try tauto; try (intros [? ?]; congruence);
    intros _; split; discriminate.
Qed.

(** A field explicitly set to [null] does not exist. *)
Example exists_on_null_field :
  let sessionState := Js.VObject [("legal", Js.VNull)] in
  let evaluate operator :=
    RuleEvaluator.evaluateConditionRule Js.noPrototype
      {| RightRuleConditionRule.field := "legal";
         RightRuleConditionRule.operator := operator;
         RightRuleConditionRule.value := Js.VUndefined |} sessionState in
  RuleEvaluator.getFieldValue Js.noPrototype "legal" sessionState = Ok Js.VNull
  /\ evaluate op_exists = Ok false
  /\ evaluate notExists = Ok true.
Proof. repeat split. Qed.

(** ** RuleEvaluator: [evaluateRules] *)

Lemma byPriority_key a b :
  RuleEvaluator.byPriority a b
  = (fun rule => - effectivePriority rule) a
    - (fun rule => - effectivePriority rule) b.
Proof. unfold RuleEvaluator.byPriority, effectivePriority. lia. Qed.

(** C2.  [evaluateRules] returns the rules of the input whose condition
    tree evaluates to [true], each as often as it occurs in the input; the
    result is in descending order of priority (an absent priority counting
    as 0); and the matched rules of any one priority appear in the order
    they have in the input. *)
Theorem evaluateRules_matched_by_priority_stable
  (inherited : Js.prototypeChain)
  (rules : list RightRule.t) (sessionState : Js.value) :
  let matched :=
    List.filter
      (fun rule => RuleEvaluator.evaluateRule inherited rule sessionState) rules in
  let result := RuleEvaluator.evaluateRules inherited rules sessionState in
  Permutation result matched
  /\ (forall rule,
        In rule result
        <-> In rule rules
            /\ RuleEvaluator.evaluateConditions inherited
                 (RightRule.conditions rule) sessionState = Ok true)
  /\ StronglySorted
       (fun a b => effectivePriority a >= effectivePriority b) result
  /\ (forall p,
        List.filter (fun rule => effectivePriority rule =? p) result
        = List.filter (fun rule => effectivePriority rule =? p) matched).
Proof.
  intros matched result. subst matched result.
  unfold RuleEvaluator.evaluateRules.
  pose proof (sort_Permutation RuleEvaluator.byPriority rules) as Hperm.
  split; [apply filter_Permutation_compat, Hperm|].
  split.
  { intros rule. rewrite filter_In, <- evaluateRule_true_iff.
    split; intros [Hin Hmatch]; (split; [|exact Hmatch]).
    - eapply Permutation_in; [exact Hperm | exact Hin].
    - eapply Permutation_in; [symmetry; exact Hperm | exact Hin]. }
  split.
  { apply filter_StronglySorted.
    eapply StronglySorted_weaken;
      [|apply (sort_StronglySorted _ _ byPriority_key)].
    unfold keyLe. intros a b. cbn beta. lia. }
  intros p.
  rewrite !(filter_filter_comm (fun rule => effectivePriority rule =? p)).
  f_equal.
  pose proof (sort_stable _ _ byPriority_key (- p) rules) as Hstable.
  assert (Hkey : forall rule,
             (effectivePriority rule =? p)
             = hasKey (fun rule => - effectivePriority rule) (- p) rule).
  { intros rule. unfold hasKey.
    destruct (Z.eqb_spec (effectivePriority rule) p),
             (Z.eqb_spec (- effectivePriority rule) (- p));
      try reflexivity; lia. }
  rewrite !(List.filter_ext _ _ Hkey). exact Hstable.
Qed.

Example evaluateRules_orders_by_priority :
  List.map RightRule.id
    (RuleEvaluator.evaluateRules Js.noPrototype
       [sampleRule "r10" (Some 10); sampleRule "r100" (Some 100);
        sampleRule "r50" (Some 50)]
       stateWithoutSituation)
  = ["r100"; "r50"; "r10"].
Proof. reflexivity. Qed.

Example evaluateRules_keeps_ties_in_input_order :
  List.map RightRule.id
    (RuleEvaluator.evaluateRules Js.noPrototype
       [sampleRule "first0" None; sampleRule "a100" (Some 100);
        sampleRule "second0" (Some 0); sampleRule "b100" (Some 100)]
       stateWithoutSituation)
  = ["a100"; "b100"; "first0"; "second0"].
Proof. reflexivity. Qed.

(** ** ActionExecutor: [prepareAction] and [executeAction] *)

Lemma or_iff_both (A B C D : Prop) :
  (A <-> C) -> (B <-> D) -> (A \/ B <-> C \/ D).
Proof. tauto. Qed.

Lemma prepareAction_canExecute action sessionState :
  ActionExecutor.Prepared.canExecute
    (ActionExecutor.prepareAction action sessionState) = true
  <-> ActionExecutor.Prepared.missingInformation
        (ActionExecutor.prepareAction action sessionState) = [].
Proof.
  unfold ActionExecutor.prepareAction.
  cbn [ActionExecutor.Prepared.canExecute
       ActionExecutor.Prepared.missingInformation].
  rewrite Nat.eqb_eq. apply length_zero_iff_nil.
Qed.

(** What [prepareAction] reports: the required-information tags the
    session state does not satisfy, then one entry per prerequisite that
    is not among the completed actions. *)
Lemma prepareAction_missingInformation action sessionState item :
  In item (ActionExecutor.Prepared.missingInformation
             (ActionExecutor.prepareAction action sessionState))
  <-> (In item (default [] (ActionTemplate.requiredInformation action))
       /\ ActionExecutor.hasRequiredInfo item sessionState = false)
      \/ (exists prereqId,
            In prereqId (default [] (ActionTemplate.prerequisites action))
            /\ ~ In prereqId
                 (List.map SessionState.actionId
                    (default [] (SessionState.completedActions sessionState)))
            /\ item = "Prerequisite action: " ++ prereqId).
Proof.
  unfold ActionExecutor.prepareAction.
  cbn [ActionExecutor.Prepared.missingInformation].
  rewrite in_app_iff. apply or_iff_both.
  - destruct (ActionTemplate.requiredInformation action) as [required|]; cbn.
    + rewrite filter_In, negb_true_iff. reflexivity.
    + tauto.
  - destruct (ActionTemplate.prerequisites action) as [[|p prereqs]|];
      [| |]; cbn [default id from_option length Nat.ltb Nat.leb].
    + split; [intros [] | intros (? & [] & _)].
    + rewrite in_map_iff. split.
      * intros (prereqId & <- & Hin). apply filter_In in Hin as [Hin Hnot].
        exists prereqId. split; [exact Hin|]. split; [|reflexivity].
        apply negb_true_iff, bool_decide_eq_false in Hnot.
        rewrite <- list_elem_of_In. exact Hnot.
      * intros (prereqId & Hin & Hnot & ->). exists prereqId.
        split; [reflexivity|]. apply filter_In. split; [exact Hin|].
        apply negb_true_iff, bool_decide_eq_false.
        rewrite list_elem_of_In. exact Hnot.
    + split; [intros [] | intros (? & [] & _)].
Qed.

(** C5.  [executeAction] answers ['pending'] with a message listing the
    missing items when [prepareAction] says the action cannot execute;
    otherwise ['pending'] when the urgency is ['critical'] or ['high'];
    otherwise ['completed'].  It answers nothing else. *)
Theorem executeAction_status
  (now : string) (action : ActionTemplate.t) (sessionState : SessionState.t) :
  let prepared := ActionExecutor.prepareAction action sessionState in
  let result := ActionExecutor.executeAction now action sessionState in
  (ActionExecutor.Prepared.canExecute prepared = false ->
     ActionExecutor.ActionExecutionResult.status result = ActionExecutor.pending
     /\ ActionExecutor.ActionExecutionResult.message result
        = Some ("Missing required information: "
                ++ Js.join ", "
                     (ActionExecutor.Prepared.missingInformation prepared)))
  /\ (ActionExecutor.Prepared.canExecute prepared = true ->
      ActionTemplate.urgency action = Some critical
      \/ ActionTemplate.urgency action = Some high ->
      ActionExecutor.ActionExecutionResult.status result = ActionExecutor.pending)
  /\ (ActionExecutor.Prepared.canExecute prepared = true ->
      ActionTemplate.urgency action <> Some critical ->
      ActionTemplate.urgency action <> Some high ->
      ActionExecutor.ActionExecutionResult.status result = ActionExecutor.completed)
  /\ (ActionExecutor.ActionExecutionResult.status result = ActionExecutor.pending
      \/ ActionExecutor.ActionExecutionResult.status result
         = ActionExecutor.completed).
Proof.
  intros prepared result. subst prepared result.
  unfold ActionExecutor.executeAction.
  destruct (ActionExecutor.Prepared.canExecute
              (ActionExecutor.prepareAction action sessionState)) eqn:Hcan;
    cbn [negb].
  - split; [discriminate|].
    destruct (ActionTemplate.urgency action) as [[]|];
      cbn [ActionExecutor.ActionExecutionResult.status];
      (split; [intros _ [H|H]; (reflexivity || discriminate H)|]);
      (split; [intros _ H1 H2; (reflexivity || contradiction)|]);
      auto.
  - cbn [ActionExecutor.ActionExecutionResult.status
         ActionExecutor.ActionExecutionResult.message].
    repeat split; try discriminate. left; reflexivity.
Qed.

Lemma executeAction_status_witness :
  ActionExecutor.ActionExecutionResult.message
    (ActionExecutor.executeAction "t0"
       (sampleAction "a1" (Some low) (Some ["Age"; "Current location"]))
       sampleSession)
  = Some "Missing required information: Age"
  /\ ActionExecutor.ActionExecutionResult.status
       (ActionExecutor.executeAction "t0"
          (sampleAction "a2" (Some high) (Some ["Current location"]))
          sampleSession)
     = ActionExecutor.pending
  /\ ActionExecutor.ActionExecutionResult.status
       (ActionExecutor.executeAction "t0"
          (sampleAction "a3" None (Some ["Current location"]))
          sampleSession)
     = ActionExecutor.completed.
Proof.
  split; [|split].
  - apply (proj1 (executeAction_status "t0"
                    (sampleAction "a1" (Some low) (Some ["Age"; "Current location"]))
                    sampleSession)).
    reflexivity.
  - apply (proj1 (proj2 (executeAction_status "t0"
                           (sampleAction "a2" (Some high) (Some ["Current location"]))
                           sampleSession)));
      [reflexivity | right; reflexivity].
  - apply (proj1 (proj2 (proj2 (executeAction_status "t0"
                                  (sampleAction "a3" None (Some ["Current location"]))
                                  sampleSession))));
      [reflexivity | discriminate | discriminate].
Defined.

(** ** ActionExecutor: [executeActions] *)

Lemma byUrgency_key a b :
  ActionExecutor.byUrgency a b
  = ActionExecutor.urgencyRank a - ActionExecutor.urgencyRank b.
Proof. reflexivity. Qed.

Lemma mapWithClock_actionId clock sessionState actions :
  forall i,
    List.map ActionExecutor.ActionExecutionResult.actionId
      (ActionExecutor.mapWithClock
         (fun now action => ActionExecutor.executeAction now action sessionState)
         clock i actions)
    = List.map ActionTemplate.id actions.
Proof.
  induction actions as [|action actions IH]; intros i; [reflexivity|].
  cbn [ActionExecutor.mapWithClock List.map]. rewrite IH. f_equal.
  unfold ActionExecutor.executeAction.
  destruct (negb _); [reflexivity|].
  destruct (ActionTemplate.urgency action) as [[]|]; reflexivity.
Qed.

(** The comparator of [executeActions] subtracts the places of the two
    urgencies: the ranks the code looks up in [urgencyOrder] are those
    places. *)
Lemma byUrgency_place a b :
  ActionExecutor.byUrgency a b
  = (fun action => Z.of_nat (urgencyPlace (ActionTemplate.urgency action))) a
    - (fun action => Z.of_nat (urgencyPlace (ActionTemplate.urgency action))) b.
Proof.
  unfold ActionExecutor.byUrgency, ActionExecutor.urgencyRank.
  destruct (ActionTemplate.urgency a) as [[]|],
           (ActionTemplate.urgency b) as [[]|]; reflexivity.
Qed.

(** C6.  [executeActions] runs [executeAction] over a rearrangement of
    the input in which critical actions come before high ones, high
    before medium, medium before low, an action without urgency standing
    with the medium ones, and in which the actions of one urgency place
    keep their input order; the results come back in that same order. *)
Theorem executeActions_urgency_order_stable
  (clock : nat -> string) (actions : list ActionTemplate.t)
  (sessionState : SessionState.t) :
  exists sortedActions,
    Permutation sortedActions actions
    /\ StronglySorted
         (fun a b =>
            (urgencyPlace (ActionTemplate.urgency a)
             <= urgencyPlace (ActionTemplate.urgency b))%nat)
         sortedActions
    /\ (forall place,
          List.filter
            (fun a => (urgencyPlace (ActionTemplate.urgency a) =? place)%nat)
            sortedActions
          = List.filter
              (fun a => (urgencyPlace (ActionTemplate.urgency a) =? place)%nat)
              actions)
    /\ ActionExecutor.executeActions clock actions sessionState
       = ActionExecutor.mapWithClock
           (fun now action => ActionExecutor.executeAction now action sessionState)
           clock 0%nat sortedActions
    /\ List.map ActionExecutor.ActionExecutionResult.actionId
         (ActionExecutor.executeActions clock actions sessionState)
       = List.map ActionTemplate.id sortedActions
    /\ (urgencyPlace (Some critical) < urgencyPlace (Some high)
        < urgencyPlace (Some medium))%nat
    /\ (urgencyPlace (Some medium) < urgencyPlace (Some low))%nat
    /\ urgencyPlace None = urgencyPlace (Some medium).
Proof.
  exists (Js.sort ActionExecutor.byUrgency actions).
  split; [apply sort_Permutation|].
  split.
  { eapply StronglySorted_weaken;
      [|apply (sort_StronglySorted _ _ byUrgency_place)].
    unfold keyLe. intros a b. cbn beta. lia. }
  split.
  { intros place.
    pose proof (sort_stable _ _ byUrgency_place (Z.of_nat place) actions)
      as Hstable.
    assert (Hkey : forall a,
               (urgencyPlace (ActionTemplate.urgency a) =? place)%nat
               = hasKey
                   (fun action =>
                      Z.of_nat (urgencyPlace (ActionTemplate.urgency action)))
                   (Z.of_nat place) a).
    { intros a. unfold hasKey.
      destruct (Nat.eqb_spec (urgencyPlace (ActionTemplate.urgency a)) place),
               (Z.eqb_spec
                  (Z.of_nat (urgencyPlace (ActionTemplate.urgency a)))
                  (Z.of_nat place));
        try reflexivity; lia. }
    rewrite !(List.filter_ext _ _ Hkey). exact Hstable. }
  split; [reflexivity|].
  split; [apply mapWithClock_actionId|].
  split; [cbn; lia|].
  split; [cbn; lia|].
  reflexivity.
Qed.

Example executeActions_orders_by_urgency :
  List.map ActionExecutor.ActionExecutionResult.actionId
    (ActionExecutor.executeActions (fun _ => "t0")
       [sampleAction "low" (Some low) None;
        sampleAction "critical" (Some critical) None;
        sampleAction "medium" (Some medium) None;
        sampleAction "high" (Some high) None;
        sampleAction "absent" None None]
       sampleSession)
  = ["critical"; "high"; "medium"; "absent"; "low"].
Proof. reflexivity. Qed.

(** ** ActionExecutor: [formatActionSteps] *)

Lemma byOrder_key a b :
  ActionExecutor.byOrder a b = ActionStep.order a - ActionStep.order b.
Proof. reflexivity. Qed.

(** Whenever there are steps, the action the call leaves behind carries
    them sorted by [order]. *)
Lemma formatActionSteps_leaves_sorted_steps action step steps :
  ActionTemplate.steps action = Some (step :: steps) ->
  snd (ActionExecutor.formatActionSteps action)
  = ActionTemplate.withSteps action
      (Some (Js.sort ActionExecutor.byOrder (step :: steps))).
Proof.
  intros Hsteps. unfold ActionExecutor.formatActionSteps.
  rewrite Hsteps. reflexivity.
Qed.

(** The call leaves the action as it found it when there are no steps to
    sort or the steps are already in ascending order. *)
Lemma formatActionSteps_leaves_sorted_action_alone action :
  StronglySorted (keyLe ActionStep.order)
    (default [] (ActionTemplate.steps action)) ->
  snd (ActionExecutor.formatActionSteps action) = action.
Proof.
  intros Hsorted. unfold ActionExecutor.formatActionSteps.
  destruct action as [? ? ? ? ? ? [[|step steps]|] ? ? ? ? ? ?];
    cbn [ActionTemplate.steps snd]; try reflexivity.
  change (StronglySorted (keyLe ActionStep.order) (step :: steps)) in Hsorted.
  unfold ActionTemplate.withSteps. cbn [ActionTemplate.steps snd].
  rewrite (sort_of_sorted _ _ byOrder_key _ Hsorted). reflexivity.
Qed.

(** C7, which the code does not meet.  [formatActionSteps] sorts the
    caller's [steps] array in place: with steps supplied as order 2 then
    order 1, the action holds them as order 1 then order 2 after the
    call, so it is not the action that was passed in. *)
Theorem formatActionSteps_reorders_the_callers_steps :
  let action := sampleAction "a1" (Some critical) None in
  let after := snd (ActionExecutor.formatActionSteps action) in
  List.map ActionStep.order (default [] (ActionTemplate.steps action)) = [2; 1]
  /\ List.map ActionStep.order (default [] (ActionTemplate.steps after)) = [1; 2]
  /\ after <> action.
Proof.
  cbv zeta. split; [reflexivity|]. split; [reflexivity|].
  intros Heq. apply (f_equal ActionTemplate.steps) in Heq.
  discriminate Heq.
Qed.

(** ** ContentPackLoader: the version pattern *)

Lemma append_assoc (a b c : string) : (a ++ b) ++ c = a ++ (b ++ c).
Proof. induction a as [|x a IH]; [reflexivity|]. exact (f_equal (String x) IH). Qed.

Lemma append_empty_r (a : string) : a ++ "" = a.
Proof. induction a as [|x a IH]; [reflexivity|]. exact (f_equal (String x) IH). Qed.

Lemma skipDigits_splits s :
  exists run,
    s = run ++ ContentPackLoader.skipDigits s
    /\ allDigits run = true
    /\ startsWithDigit (ContentPackLoader.skipDigits s) = false.
Proof.
  induction s as [|c s (run & Hs & Hrun & Hrest)].
  - exists "". repeat split.
  - cbn [ContentPackLoader.skipDigits].
    destruct (ContentPackLoader.isDigit c) eqn:Hc.
    + exists (String c run). split; [|split].
      * exact (f_equal (String c) Hs).
      * cbn [allDigits]. rewrite Hc, Hrun. reflexivity.
      * exact Hrest.
    + exists "". split; [reflexivity|]. split; [reflexivity|].
      cbn [startsWithDigit]. exact Hc.
Qed.

Lemma skipDigits_app run rest :
  allDigits run = true ->
  startsWithDigit rest = false ->
  ContentPackLoader.skipDigits (run ++ rest) = rest.
Proof.
  intros Hrun Hrest. induction run as [|c run IH].
  - destruct rest as [|c rest]; [reflexivity|].
    cbn [startsWithDigit] in Hrest.
    change ("" ++ String c rest) with (String c rest).
    cbn [ContentPackLoader.skipDigits]. rewrite Hrest. reflexivity.
  - cbn [allDigits] in Hrun. apply andb_true_iff in Hrun as [Hc Hrun].
    change (String c run ++ rest) with (String c (run ++ rest)).
    cbn [ContentPackLoader.skipDigits]. rewrite Hc. apply IH, Hrun.
Qed.

Lemma digitRun_Some s rest :
  ContentPackLoader.digitRun s = Some rest ->
  exists run, digits run /\ s = run ++ rest.
Proof.
  destruct s as [|c s]; cbn [ContentPackLoader.digitRun]; [discriminate|].
  destruct (ContentPackLoader.isDigit c) eqn:Hc; [|discriminate].
  intros [= <-]. destruct (skipDigits_splits s) as (run & Hs & Hrun & _).
  exists (String c run). split.
  - split; [discriminate|]. cbn [allDigits]. rewrite Hc, Hrun. reflexivity.
  - exact (f_equal (String c) Hs).
Qed.

Lemma digitRun_app run rest :
  digits run ->
  startsWithDigit rest = false ->
  ContentPackLoader.digitRun (run ++ rest) = Some rest.
Proof.
  intros [Hne Hrun] Hrest. destruct run as [|c run]; [contradiction|].
  cbn [allDigits] in Hrun. apply andb_true_iff in Hrun as [Hc Hrun].
  change (String c run ++ rest) with (String c (run ++ rest)).
  cbn [ContentPackLoader.digitRun]. rewrite Hc.
  rewrite skipDigits_app by assumption. reflexivity.
Qed.

Lemma fullStop_Some s rest :
  ContentPackLoader.fullStop s = Some rest -> s = "." ++ rest.
Proof.
  destruct s as [|c s]; cbn [ContentPackLoader.fullStop]; [discriminate|].
  destruct (Ascii.eqb_spec c "."); [|discriminate].
  intros [= <-]. subst c. reflexivity.
Qed.

(** The recogniser decides the pattern. *)
Lemma versionRegexTest_matchesSemVer version :
  ContentPackLoader.versionRegexTest version = true <-> matchesSemVer version.
Proof.
  unfold ContentPackLoader.versionRegexTest. split.
  - destruct (ContentPackLoader.digitRun version) as [r1|] eqn:H1;
      cbn; [|discriminate].
    destruct (ContentPackLoader.fullStop r1) as [r2|] eqn:H2;
      cbn; [|discriminate].
    destruct (ContentPackLoader.digitRun r2) as [r3|] eqn:H3;
      cbn; [|discriminate].
    destruct (ContentPackLoader.fullStop r3) as [r4|] eqn:H4;
      cbn; [|discriminate].
    destruct (ContentPackLoader.digitRun r4) as [[|c r5]|] eqn:H5;
      cbn; try discriminate.
    intros _.
    apply digitRun_Some in H1 as (major & Hmajor & ->).
    apply fullStop_Some in H2 as ->.
    apply digitRun_Some in H3 as (minor & Hminor & ->).
    apply fullStop_Some in H4 as ->.
    apply digitRun_Some in H5 as (patch & Hpatch & ->).
    exists major, minor, patch. rewrite append_empty_r.
    repeat split; try apply Hmajor; try apply Hminor; try apply Hpatch.
  - intros (major & minor & patch & -> & Hmajor & Hminor & Hpatch).
    change (major ++ "." ++ minor ++ "." ++ patch)
      with (major ++ String "." (minor ++ String "." patch)).
    rewrite (digitRun_app major) by (assumption || reflexivity). cbn.
    rewrite (digitRun_app minor) by (assumption || reflexivity). cbn.
    rewrite <- (append_empty_r patch).
    rewrite (digitRun_app patch) by (assumption || reflexivity). reflexivity.
Qed.

Example versionRegexTest_examples :
  ContentPackLoader.versionRegexTest "1.0.0" = true
  /\ ContentPackLoader.versionRegexTest "12.0.345" = true
  /\ ContentPackLoader.versionRegexTest "1.0" = false
  /\ ContentPackLoader.versionRegexTest "1.0.0.0" = false
  /\ ContentPackLoader.versionRegexTest "v1.0.0" = false
  /\ ContentPackLoader.versionRegexTest "1.0.0-beta" = false.
Proof. repeat split. Qed.

(** ** ContentPackLoader: validation *)

Lemma truthyString_nonEmpty member :
  Js.truthyString member = true <-> nonEmpty member.
Proof.
  unfold nonEmpty. destruct member as [s|]; cbn.
  - rewrite negb_true_iff, String.eqb_neq. split.
    + intros Hs. exists s. split; [reflexivity | exact Hs].
    + intros (s' & [= <-] & Hs). exact Hs.
  - split; [discriminate | intros (s & [=] & _)].
Qed.

Section DuplicateIds.
Context {A : Type} `{HasId A}.

Lemma collectDuplicates_nil (items : list A) :
  forall ids : gset string,
    ContentPackLoader.collectDuplicates items ids = []
    <-> NoDup (List.map getId items)
        /\ (forall item, In item items -> getId item ∉ ids).
Proof.
  induction items as [|x rest IH]; intros ids.
  - cbn. split; [intros _; split; [constructor | intros ? []] | reflexivity].
  - cbn [ContentPackLoader.collectDuplicates List.map].
    destruct (bool_decide (getId x ∈ ids)) eqn:Hx.
    + apply bool_decide_eq_true in Hx. split; [discriminate|].
      intros [_ Hfresh]. exfalso. apply (Hfresh x); [left; reflexivity | exact Hx].
    + apply bool_decide_eq_false in Hx. rewrite IH, NoDup_cons. split.
      * intros [Hnodup Hfresh]. split; [split; [|exact Hnodup]|].
        -- rewrite list_elem_of_In, in_map_iff. intros (y & Hy & Hin).
           apply (Hfresh y Hin). rewrite Hy.
           apply elem_of_union_l, elem_of_singleton. reflexivity.
        -- intros item [<-|Hin]; [exact Hx|].
           intros Hitem. apply (Hfresh item Hin), elem_of_union_r, Hitem.
      * intros [[Hnotin Hnodup] Hfresh]. split; [exact Hnodup|].
        intros item Hin. specialize (Hfresh item (or_intror Hin)).
        intros [Heq%elem_of_singleton|Hitem]%elem_of_union; [|exact (Hfresh Hitem)].
        apply Hnotin. rewrite list_elem_of_In, in_map_iff.
        exists item. split; [exact Heq | exact Hin].
Qed.

(** [checkDuplicateIds] returns when the ids are pairwise distinct and
    throws, naming the repeated ids, when they are not. *)
Lemma checkDuplicateIds_cases (items : list A) (type : string) :
  (NoDup (List.map getId items)
   /\ ContentPackLoader.checkDuplicateIds items type = Ok tt)
  \/ (~ NoDup (List.map getId items)
      /\ exists duplicates,
           duplicates <> []
           /\ ContentPackLoader.checkDuplicateIds items type
              = Throw ("Duplicate " ++ type ++ " IDs found in content pack: "
                       ++ Js.join ", " duplicates)).
Proof.
  unfold ContentPackLoader.checkDuplicateIds.
  pose proof (collectDuplicates_nil items ∅) as Hnil.
  destruct (ContentPackLoader.collectDuplicates items ∅) as [|d ds].
  - left. split; [|reflexivity]. apply Hnil. reflexivity.
  - right. split.
    + intros Hnodup. enough (d :: ds = []) by discriminate.
      apply Hnil. split; [exact Hnodup|]. intros item _. apply not_elem_of_empty.
    + exists (d :: ds). split; [discriminate | reflexivity].
Qed.

End DuplicateIds.

(** [validateContentPack] returns exactly on the valid packs, and on
    every other pack throws a message that names the failed check. *)
Lemma validateContentPack_cases pack :
  (validContentPack pack
   /\ ContentPackLoader.validateContentPack pack = Ok tt)
  \/ (~ validContentPack pack
      /\ exists message,
           ContentPackLoader.validateContentPack pack = Throw message
           /\ describesFailure message).
Proof.
  unfold ContentPackLoader.validateContentPack, validContentPack.
  destruct (Js.truthyString (ContentPack.id pack)) eqn:Hid; cbn [negb];
    [apply truthyString_nonEmpty in Hid|].
  2:{ right. split.
      - intros (Hne & _). apply truthyString_nonEmpty in Hne. congruence.
      - eexists. split; [reflexivity|]. left. cbn. tauto. }
  destruct (Js.truthyString (ContentPack.name pack)) eqn:Hname; cbn [negb];
    [apply truthyString_nonEmpty in Hname|].
  2:{ right. split.
      - intros (_ & Hne & _). apply truthyString_nonEmpty in Hne. congruence.
      - eexists. split; [reflexivity|]. left. cbn. tauto. }
  destruct (Js.truthyString (ContentPack.version pack)) eqn:Hversion; cbn [negb];
    [apply truthyString_nonEmpty in Hversion|].
  2:{ right. split.
      - intros (_ & _ & Hne & _). apply truthyString_nonEmpty in Hne. congruence.
      - eexists. split; [reflexivity|]. left. cbn. tauto. }
  destruct (Js.truthyString (ContentPack.jurisdiction pack)) eqn:Hjur; cbn [negb];
    [apply truthyString_nonEmpty in Hjur|].
  2:{ right. split.
      - intros (_ & _ & _ & Hne & _). apply truthyString_nonEmpty in Hne. congruence.
      - eexists. split; [reflexivity|]. left. cbn. tauto. }
  destruct Hversion as (version & Hv & Hvne). rewrite Hv. cbn [default id from_option].
  destruct (ContentPackLoader.versionRegexTest version) eqn:Hre; cbn [negb].
  2:{ right. split.
      - intros (_ & _ & _ & _ & (v & [= <-] & Hsem) & _).
        apply versionRegexTest_matchesSemVer in Hsem. congruence.
      - eexists. split; [reflexivity|]. left. cbn. tauto. }
  apply versionRegexTest_matchesSemVer in Hre.
  assert (Hv' : nonEmpty (Some version)) by (exists version; split; auto).
  unfold distinctIds.
  destruct (checkDuplicateIds_cases (default [] (ContentPack.questions pack)) "questions")
    as [[Hq ->]|[Hq (dups & Hdups & ->)]]; cbn [bind].
  2:{ right. split; [tauto|]. eexists. split; [reflexivity|].
      right. exists "questions", dups. cbn. tauto. }
  destruct (checkDuplicateIds_cases (default [] (ContentPack.rules pack)) "rules")
    as [[Hr ->]|[Hr (dups & Hdups & ->)]]; cbn [bind].
  2:{ right. split; [tauto|]. eexists. split; [reflexivity|].
      right. exists "rules", dups. cbn. tauto. }
  destruct (checkDuplicateIds_cases (default [] (ContentPack.actions pack)) "actions")
    as [[Ha ->]|[Ha (dups & Hdups & ->)]]; cbn [bind].
  2:{ right. split; [tauto|]. eexists. split; [reflexivity|].
      right. exists "actions", dups. cbn. tauto. }
  destruct (checkDuplicateIds_cases (default [] (ContentPack.services pack)) "services")
    as [[Hs ->]|[Hs (dups & Hdups & ->)]].
  2:{ right. split; [tauto|]. eexists. split; [reflexivity|].
      right. exists "services", dups. cbn. tauto. }
  left. split; [|reflexivity].
  split; [exact Hid|]. split; [exact Hname|]. split; [exact Hv'|].
  split; [exact Hjur|].
  split; [exists version; split; [reflexivity | exact Hre]|].
  tauto.
Qed.

(** ** ContentPackLoader: loading *)

(** A valid pack is registered under its id, replacing what was there. *)
Lemma loadContentPack_accepts_valid pack self :
  validContentPack pack ->
  ContentPackLoader.loadContentPack pack self
  = (Ok tt,
     {| ContentPackLoader.loadedPacks :=
          <[ ContentPack.id pack := pack ]> (ContentPackLoader.loadedPacks self) |}).
Proof.
  intros Hvalid. unfold ContentPackLoader.loadContentPack.
  destruct (validateContentPack_cases pack) as [[_ ->]|[Hinvalid _]];
    [reflexivity | contradiction].
Qed.

(** C4.  Loading a pack that fails validation throws an error whose
    message names the failed check, and leaves the loader as it was. *)
Theorem loadContentPack_rejects_invalid
  (pack : ContentPack.t) (self : ContentPackLoader.t) :
  ~ validContentPack pack ->
  exists message,
    ContentPackLoader.loadContentPack pack self = (Throw message, self)
    /\ describesFailure message.
Proof.
  intros Hinvalid. unfold ContentPackLoader.loadContentPack.
  destruct (validateContentPack_cases pack)
    as [[Hvalid _]|[_ (message & -> & Hdescribes)]]; [contradiction|].
  exists message. split; [reflexivity | exact Hdescribes].
Qed.

Lemma loadContentPack_rejects_invalid_witness :
  exists message,
    ContentPackLoader.loadContentPack
      (samplePack "dup" (Some "1.0.0") twoActionsNamedA1) loaderWithOnePack
    = (Throw message, loaderWithOnePack)
    /\ describesFailure message.
Proof.
  apply loadContentPack_rejects_invalid.
  intros (_ & _ & _ & _ & _ & _ & _ & Hactions & _).
  unfold distinctIds in Hactions. cbn in Hactions.
  apply NoDup_cons_1_1 in Hactions. apply Hactions. left.
Defined.

Example loadContentPack_duplicate_action_ids :
  ContentPackLoader.loadContentPack
    (samplePack "dup" (Some "1.0.0") twoActionsNamedA1) loaderWithOnePack
  = (Throw "Duplicate actions IDs found in content pack: a1", loaderWithOnePack)
  /\ ContentPackLoader.getContentPack loaderWithOnePack "dup" = None.
Proof. split; reflexivity. Qed.

Example loadContentPack_version_without_patch :
  ContentPackLoader.loadContentPack
    (samplePack "short" (Some "1.0") []) loaderWithOnePack
  = (Throw "Content pack version must follow semantic versioning (e.g., 1.0.0)",
     loaderWithOnePack).
Proof. reflexivity. Qed.

Example loadContentPack_missing_version :
  ContentPackLoader.loadContentPack
    (samplePack "none" None []) loaderWithOnePack
  = (Throw "Content pack must have a version", loaderWithOnePack).
Proof. reflexivity. Qed.

(** ** ContentPackLoader: the packs it holds are valid *)

Lemma allValid_packsValid self : allValid self -> packsValid self.
Proof.
  intros Hall. split.
  - intros packId pack. apply Hall.
  - intros pack Hin. unfold ContentPackLoader.getAllContentPacks in Hin.
    apply in_map_iff in Hin as ([key pack'] & Hsnd & Hin). cbn in Hsnd. subst pack'.
    apply list_elem_of_In, elem_of_map_to_list in Hin. eapply Hall, Hin.
Qed.

Lemma packsValid_allValid self : packsValid self -> allValid self.
Proof.
  intros [_ Hall] key pack Hlookup. apply Hall.
  unfold ContentPackLoader.getAllContentPacks. apply in_map_iff.
  exists (key, pack). split; [reflexivity|].
  apply list_elem_of_In, elem_of_map_to_list, Hlookup.
Qed.

Lemma allValid_create : allValid ContentPackLoader.create.
Proof.
  intros key pack Hlookup. cbn in Hlookup.
  rewrite lookup_empty in Hlookup. discriminate.
Qed.

Lemma allValid_loadContentPack pack self :
  allValid self -> allValid (snd (ContentPackLoader.loadContentPack pack self)).
Proof.
  intros Hall. unfold ContentPackLoader.loadContentPack.
  destruct (validateContentPack_cases pack) as [[Hvalid ->]|[_ (message & -> & _)]];
    [|exact Hall].
  intros key pack' Hlookup. cbn in Hlookup.
  destruct (decide (ContentPack.id pack = key)) as [<-|Hne].
  - rewrite lookup_insert_eq in Hlookup. injection Hlookup as <-. exact Hvalid.
  - rewrite lookup_insert_ne in Hlookup by exact Hne. eapply Hall, Hlookup.
Qed.

Lemma allValid_after call self :
  allValid self -> allValid (ContentPackLoader.after call self).
Proof.
  intros Hall. destruct call; cbn [ContentPackLoader.after]; try exact Hall.
  - apply allValid_loadContentPack, Hall.
  - unfold ContentPackLoader.loadContentPackFromUrl.
    destruct fetched as [reason|ok statusText [packData|e]]; try exact Hall;
      destruct ok; cbn [negb snd]; try exact Hall.
    pose proof (allValid_loadContentPack packData self Hall) as Hload.
    destruct (ContentPackLoader.loadContentPack packData self) as [[[]|e] self'];
      exact Hload.
  - intros key pack Hlookup. cbn in Hlookup. rewrite lookup_empty in Hlookup.
    discriminate.
  - intros key pack Hlookup. cbn in Hlookup.
    apply lookup_delete_Some in Hlookup as [_ Hlookup]. eapply Hall, Hlookup.
Qed.

(** C9.  If every pack the loader hands out is valid, the same holds
    after any call of any public method: loading (from data or from a
    URL, accepted or rejected), removing, clearing, and every accessor. *)
Theorem packsValid_preserved
  (call : ContentPackLoader.Call) (self : ContentPackLoader.t) :
  packsValid self -> packsValid (ContentPackLoader.after call self).
Proof.
  intros Hvalid.
  apply allValid_packsValid, allValid_after, packsValid_allValid, Hvalid.
Qed.

(** A fresh loader holds no pack, so whatever sequence of calls is made
    on it, every pack it hands out is valid. *)
Lemma packsValid_reachable calls :
  packsValid (ContentPackLoader.afterAll calls ContentPackLoader.create).
Proof.
  apply allValid_packsValid. unfold ContentPackLoader.afterAll.
  generalize ContentPackLoader.create allValid_create.
  induction calls as [|call calls IH]; intros self Hall; [exact Hall|].
  cbn [fold_left]. apply IH, allValid_after, Hall.
Qed.

Lemma packsValid_preserved_witness :
  packsValid
    (ContentPackLoader.after
       (ContentPackLoader.CallLoadContentPack
          (samplePack "dup" (Some "1.0.0") twoActionsNamedA1))
       (ContentPackLoader.after
          (ContentPackLoader.CallLoadContentPack
             (samplePack "england" (Some "1.0.0") [sampleAction "a1" None None]))
          ContentPackLoader.create)).
Proof.
  apply packsValid_preserved, packsValid_preserved.
  apply allValid_packsValid, allValid_create.
Defined.

(** * Further properties *)

(** ** RuleEvaluator: how a group combines its members *)

Lemma mapResult_total {A B} (f : A -> Result B) (g : A -> B) (xs : list A) :
  (forall x, f x = Ok (g x)) ->
  RuleEvaluator.mapResult f xs = Ok (List.map g xs).
Proof.
  intros Hf. induction xs as [|x xs IH]; [reflexivity|].
  cbn [RuleEvaluator.mapResult List.map]. rewrite Hf, IH. reflexivity.
Qed.

Lemma ruleHolds_spec inherited sessionState rule :
  RuleEvaluator.evaluateConditionRule inherited rule sessionState
  = Ok (ruleHolds inherited sessionState rule).
Proof.
  unfold ruleHolds.
  destruct (evaluateConditionRule_returns inherited rule sessionState) as [b ->].
  reflexivity.
Qed.

Lemma groupHolds_spec inherited sessionState group :
  RuleEvaluator.evaluateConditions inherited group sessionState
  = Ok (groupHolds inherited sessionState group).
Proof.
  unfold groupHolds.
  destruct (evaluateConditions_returns inherited group sessionState) as [b ->].
  reflexivity.
Qed.

(** The results a group combines: those of its rules, then those of its
    nested groups. *)
Lemma evaluateConditions_members inherited type rules nested sessionState :
  RuleEvaluator.evaluateConditions inherited
    (RightRuleConditions.make type rules nested) sessionState
  = let allResults :=
      (List.map (ruleHolds inherited sessionState) (default [] rules)
       ++ List.map (groupHolds inherited sessionState) (default [] nested))%list in
    match type with
    | type_all =>
        Ok ((0 <? length allResults)%nat && forallb (fun r => r) allResults)
    | type_any =>
        Ok ((0 <? length allResults)%nat && existsb (fun r => r) allResults)
    | type_none =>
        Ok ((0 <? length allResults)%nat && forallb (fun r => negb r) allResults)
    | type_other _ => Ok false
    end.
Proof.
  cbn [RuleEvaluator.evaluateConditions RightRuleConditions.rules
       RightRuleConditions.nested RightRuleConditions.type].
  rewrite (mapResult_total _ (ruleHolds inherited sessionState))
    by (intros rule; apply ruleHolds_spec).
  cbn [bind].
  match goal with
  | |- bind ?m _ = _ =>
      assert (Hn : m = Ok (List.map (groupHolds inherited sessionState)
                             (default [] nested)))
  end.
  { destruct nested as [groups|]; [|reflexivity].
    change (default [] (Some groups)) with groups.
    induction groups as [|g more IH]; [reflexivity|].
    rewrite groupHolds_spec. cbn [bind]. rewrite IH. reflexivity. }
  rewrite Hn. cbn [bind]. destruct type; reflexivity.
Qed.

Lemma members_nonempty inherited sessionState rules nested :
  (0 <? length
          (List.map (ruleHolds inherited sessionState) (default [] rules)
           ++ List.map (groupHolds inherited sessionState) (default [] nested)))%nat
  = true
  <-> assertsSomething rules nested.
Proof.
  unfold assertsSomething. rewrite Nat.ltb_lt, length_app, !length_map.
  destruct (default [] rules), (default [] nested); cbn; split;
    try lia; try (intros [H|H]; congruence);
    intros _; (left; discriminate) || (right; discriminate).
Qed.

Lemma ruleHolds_true inherited sessionState rule :
  ruleHolds inherited sessionState rule = true
  <-> RuleEvaluator.evaluateConditionRule inherited rule sessionState = Ok true.
Proof.
  rewrite ruleHolds_spec. split; [intros ->; reflexivity | intros [= ->]; reflexivity].
Qed.

Lemma groupHolds_true inherited sessionState group :
  groupHolds inherited sessionState group = true
  <-> RuleEvaluator.evaluateConditions inherited group sessionState = Ok true.
Proof.
  rewrite groupHolds_spec. split; [intros ->; reflexivity | intros [= ->]; reflexivity].
Qed.

(** X1.  An ['all'] group evaluates to [true] exactly when it has at least
    one member and every rule and every nested group of it evaluates to
    [true]. *)
Theorem evaluateConditions_all_iff
  (inherited : Js.prototypeChain)
  (rules : option (list RightRuleConditionRule.t))
  (nested : option (list RightRuleConditions.t))
  (sessionState : Js.value) :
  RuleEvaluator.evaluateConditions inherited
    (RightRuleConditions.make type_all rules nested) sessionState = Ok true
  <-> assertsSomething rules nested
      /\ (forall rule, In rule (default [] rules) ->
            RuleEvaluator.evaluateConditionRule inherited rule sessionState
            = Ok true)
      /\ (forall group, In group (default [] nested) ->
            RuleEvaluator.evaluateConditions inherited group sessionState
            = Ok true).
Proof.
  rewrite evaluateConditions_members. cbv zeta.
  rewrite <- members_nonempty.
  split.
  - intros [= H]. apply andb_true_iff in H as [Hlen Hall].
    rewrite forallb_app in Hall. apply andb_true_iff in Hall as [Hr Hn].
    rewrite forallb_forall in Hr, Hn.
    split; [exact Hlen|]. split.
    + intros rule Hin. apply ruleHolds_true, Hr, in_map, Hin.
    + intros group Hin. apply groupHolds_true, Hn, in_map, Hin.
  - intros (Hlen & Hr & Hn). rewrite Hlen. cbn [andb]. f_equal.
    rewrite forallb_app. apply andb_true_iff. split; apply forallb_forall.
    + intros b (rule & <- & Hin)%in_map_iff. apply ruleHolds_true, Hr, Hin.
    + intros b (group & <- & Hin)%in_map_iff. apply groupHolds_true, Hn, Hin.
Qed.

(** X2.  An ['any'] group evaluates to [true] exactly when one of its
    rules or one of its nested groups evaluates to [true]. *)
Theorem evaluateConditions_any_iff
  (inherited : Js.prototypeChain)
  (rules : option (list RightRuleConditionRule.t))
  (nested : option (list RightRuleConditions.t))
  (sessionState : Js.value) :
  RuleEvaluator.evaluateConditions inherited
    (RightRuleConditions.make type_any rules nested) sessionState = Ok true
  <-> (exists rule,
         In rule (default [] rules)
         /\ RuleEvaluator.evaluateConditionRule inherited rule sessionState
            = Ok true)
      \/ (exists group,
            In group (default [] nested)
            /\ RuleEvaluator.evaluateConditions inherited group sessionState
               = Ok true).
Proof.
  rewrite evaluateConditions_members. cbv zeta.
  split.
  - intros [= H]. apply andb_true_iff in H as [_ Hany].
    rewrite existsb_app in Hany. apply orb_true_iff in Hany as [H|H];
      apply existsb_exists in H as (b & (x & <- & Hin)%in_map_iff & Hb).
    + left. exists x. split; [exact Hin | apply ruleHolds_true, Hb].
    + right. exists x. split; [exact Hin | apply groupHolds_true, Hb].
  - intros Hex. f_equal. apply andb_true_iff. split.
    + apply members_nonempty. unfold assertsSomething.
      destruct Hex as [(x & Hin & _)|(x & Hin & _)]; [left|right];
        intros Hnil; rewrite Hnil in Hin; exact Hin.
    + rewrite existsb_app. apply orb_true_iff.
      destruct Hex as [(x & Hin & Hx)|(x & Hin & Hx)]; [left|right];
        apply existsb_exists.
      * exists (ruleHolds inherited sessionState x).
        split; [apply in_map, Hin | apply ruleHolds_true, Hx].
      * exists (groupHolds inherited sessionState x).
        split; [apply in_map, Hin | apply groupHolds_true, Hx].
Qed.

(** X3.  On a group that has at least one member, ['none'] is the
    negation of ['any']: the one evaluates to [true] exactly when the
    other evaluates to [false]. *)
Theorem evaluateConditions_none_negates_any
  (inherited : Js.prototypeChain)
  (rules : option (list RightRuleConditionRule.t))
  (nested : option (list RightRuleConditions.t))
  (sessionState : Js.value) :
  assertsSomething rules nested ->
  exists b,
    RuleEvaluator.evaluateConditions inherited
      (RightRuleConditions.make type_any rules nested) sessionState = Ok b
    /\ RuleEvaluator.evaluateConditions inherited
         (RightRuleConditions.make type_none rules nested) sessionState
       = Ok (negb b).
Proof.
  intros Hsome. rewrite !evaluateConditions_members. cbv zeta.
  apply (proj2 (members_nonempty inherited sessionState rules nested)) in Hsome.
  rewrite Hsome. cbn [andb].
  eexists. split; [reflexivity|]. f_equal.
  generalize (List.map (ruleHolds inherited sessionState) (default [] rules)
              ++ List.map (groupHolds inherited sessionState) (default [] nested))%list.
  intros l. induction l as [|[] l IH]; cbn; [reflexivity|reflexivity|exact IH].
Qed.

Lemma evaluateConditions_none_negates_any_witness :
  exists b,
    RuleEvaluator.evaluateConditions Js.noPrototype
      (RightRuleConditions.make type_any (Some [homelessTonight]) None)
      stateWithoutSituation = Ok b
    /\ RuleEvaluator.evaluateConditions Js.noPrototype
         (RightRuleConditions.make type_none (Some [homelessTonight]) None)
         stateWithoutSituation = Ok (negb b).
Proof.
  apply evaluateConditions_none_negates_any. left. discriminate.
Defined.

(** X4.  For a rule whose condition tree has the shape the interface
    [RightRuleConditions] declares ([rules] and [nested] absent or
    arrays, every entry a rule with a string [field] or a group of that
    same shape), [evaluateConditions] returns a boolean whatever the
    session state holds or lacks, and [evaluateRule] returns that
    boolean.  Trees that break the interface (a [null] list or entry, a
    rule without [conditions]) are not values of the type and are not
    spoken of here. *)
Theorem evaluateRule_is_the_tree_value
  (inherited : Js.prototypeChain) (rule : RightRule.t) (sessionState : Js.value) :
  RuleEvaluator.evaluateConditions inherited
    (RightRule.conditions rule) sessionState
  = Ok (RuleEvaluator.evaluateRule inherited rule sessionState).
Proof.
  unfold RuleEvaluator.evaluateRule.
  destruct (evaluateConditions_returns inherited
              (RightRule.conditions rule) sessionState) as [b ->].
  reflexivity.
Qed.

(** ** RuleEvaluator: operators and their opposites *)

(** X5.  [notEquals] is the negation of [equals] and [notContains] the
    negation of [contains], for every field, value and session state
    (unlike [notIn] and [in]). *)
Theorem notEquals_and_notContains_negate
  (inherited : Js.prototypeChain)
  (field : string) (value sessionState : Js.value) :
  let evaluate operator :=
    RuleEvaluator.evaluateConditionRule inherited
      {| RightRuleConditionRule.field := field;
         RightRuleConditionRule.operator := operator;
         RightRuleConditionRule.value := value |} sessionState in
  exists same inside,
    evaluate equals = Ok same
    /\ evaluate notEquals = Ok (negb same)
    /\ evaluate contains = Ok inside
    /\ evaluate notContains = Ok (negb inside).
Proof.
  intros evaluate. subst evaluate.
  unfold RuleEvaluator.evaluateConditionRule.
  cbn [RightRuleConditionRule.field RightRuleConditionRule.operator
       RightRuleConditionRule.value].
  destruct (getFieldValue_returns inherited field sessionState) as [fieldValue ->].
  cbn [bind].
  destruct fieldValue, value; do 2 eexists; repeat split.
Qed.

(** X6.  A comparison needs a number on both sides: when the resolved
    field value or the rule's value is not a number, [greaterThan],
    [lessThan], [greaterThanOrEqual] and [lessThanOrEqual] all evaluate
    to [false]. *)
Theorem comparisons_false_without_numbers
  (inherited : Js.prototypeChain)
  (field : string) (value sessionState fieldValue : Js.value) :
  RuleEvaluator.getFieldValue inherited field sessionState = Ok fieldValue ->
  Js.typeof fieldValue <> Js.TNumber \/ Js.typeof value <> Js.TNumber ->
  let evaluate operator :=
    RuleEvaluator.evaluateConditionRule inherited
      {| RightRuleConditionRule.field := field;
         RightRuleConditionRule.operator := operator;
         RightRuleConditionRule.value := value |} sessionState in
  evaluate greaterThan = Ok false
  /\ evaluate lessThan = Ok false
  /\ evaluate greaterThanOrEqual = Ok false
  /\ evaluate lessThanOrEqual = Ok false.
Proof.
  intros Hfield Hnumbers evaluate. subst evaluate.
  unfold RuleEvaluator.evaluateConditionRule.
  cbn [RightRuleConditionRule.field RightRuleConditionRule.operator
       RightRuleConditionRule.value].
  rewrite Hfield. cbn [bind].
  assert (Hfalse : forall test,
             RuleEvaluator.bothNumbers fieldValue value test = false).
  { intros test. destruct fieldValue, value; try reflexivity.
    destruct Hnumbers as [H|H]; exfalso; apply H; reflexivity. }
  rewrite !Hfalse. repeat split.
Qed.

Lemma comparisons_false_without_numbers_witness :
  RuleEvaluator.evaluateConditionRule Js.noPrototype
    {| RightRuleConditionRule.field := "user.age";
       RightRuleConditionRule.operator := lessThan;
       RightRuleConditionRule.value := Js.VNumber 18 |}
    stateWithoutSituation = Ok false
  /\ RuleEvaluator.evaluateConditionRule Js.noPrototype
       {| RightRuleConditionRule.field := "user.age";
          RightRuleConditionRule.operator := greaterThanOrEqual;
          RightRuleConditionRule.value := Js.VNumber 18 |}
       stateWithoutSituation = Ok false.
Proof.
  assert (Hfield : RuleEvaluator.getFieldValue Js.noPrototype
                     "user.age" stateWithoutSituation = Ok Js.VUndefined)
    by reflexivity.
  assert (Hnumbers : Js.typeof Js.VUndefined <> Js.TNumber
                     \/ Js.typeof (Js.VNumber 18) <> Js.TNumber)
    by (left; discriminate).
  pose proof (comparisons_false_without_numbers Js.noPrototype
                "user.age" (Js.VNumber 18) stateWithoutSituation Js.VUndefined
                Hfield Hnumbers)
    as (_ & Hlt & Hge & _).
  split; [exact Hlt | exact Hge].
Defined.

(** X7.  When the field resolves to an integer [x] and the rule's value
    is an integer [y] (neither of them [NaN], which no integer is),
    [lessThan] is [x < y], [greaterThan] is [y < x],
    [greaterThanOrEqual] is the negation of [lessThan] and
    [lessThanOrEqual] the negation of [greaterThan]. *)
Theorem comparisons_on_numbers
  (inherited : Js.prototypeChain)
  (field : string) (sessionState : Js.value) (x y : Z) :
  RuleEvaluator.getFieldValue inherited field sessionState = Ok (Js.VNumber x) ->
  let evaluate operator :=
    RuleEvaluator.evaluateConditionRule inherited
      {| RightRuleConditionRule.field := field;
         RightRuleConditionRule.operator := operator;
         RightRuleConditionRule.value := Js.VNumber y |} sessionState in
  evaluate lessThan = Ok (x <? y)
  /\ evaluate greaterThanOrEqual = Ok (negb (x <? y))
  /\ evaluate greaterThan = Ok (y <? x)
  /\ evaluate lessThanOrEqual = Ok (negb (y <? x)).
Proof.
  intros Hfield evaluate. subst evaluate.
  unfold RuleEvaluator.evaluateConditionRule.
  cbn [RightRuleConditionRule.field RightRuleConditionRule.operator
       RightRuleConditionRule.value].
  rewrite Hfield. cbn [bind RuleEvaluator.bothNumbers].
  repeat split; f_equal.
  - rewrite Z.geb_leb, Z.leb_antisym. reflexivity.
  - apply Z.gtb_ltb.
  - apply Z.leb_antisym.
Qed.

Lemma comparisons_on_numbers_witness :
  RuleEvaluator.evaluateConditionRule Js.noPrototype
    {| RightRuleConditionRule.field := "age";
       RightRuleConditionRule.operator := lessThan;
       RightRuleConditionRule.value := Js.VNumber 18 |}
    (Js.VObject [("age", Js.VNumber 17)]) = Ok true.
Proof.
  assert (Hfield : RuleEvaluator.getFieldValue Js.noPrototype "age"
                     (Js.VObject [("age", Js.VNumber 17)])
                   = Ok (Js.VNumber 17))
    by reflexivity.
  exact (proj1 (comparisons_on_numbers Js.noPrototype "age"
                  (Js.VObject [("age", Js.VNumber 17)]) 17 18 Hfield)).
Defined.

(** X8.  When the field is missing (resolves to [undefined]) and the
    rule's value is anything but [undefined], the positive operators
    [equals] and [contains] evaluate to [false] and the negative ones,
    [notEquals], [notContains] and [notExists], to [true]. *)
Theorem negative_operators_match_missing_field
  (inherited : Js.prototypeChain)
  (field : string) (value sessionState : Js.value) :
  RuleEvaluator.getFieldValue inherited field sessionState = Ok Js.VUndefined ->
  value <> Js.VUndefined ->
  let evaluate operator :=
    RuleEvaluator.evaluateConditionRule inherited
      {| RightRuleConditionRule.field := field;
         RightRuleConditionRule.operator := operator;
         RightRuleConditionRule.value := value |} sessionState in
  evaluate equals = Ok false
  /\ evaluate contains = Ok false
  /\ evaluate notEquals = Ok true
  /\ evaluate notContains = Ok true
  /\ evaluate notExists = Ok true.
Proof.
  intros Hfield Hvalue evaluate. subst evaluate.
  unfold RuleEvaluator.evaluateConditionRule.
  cbn [RightRuleConditionRule.field RightRuleConditionRule.operator
       RightRuleConditionRule.value].
  rewrite Hfield. cbn [bind].
  destruct value; try contradiction; repeat split.
Qed.

Lemma negative_operators_match_missing_field_witness :
  RuleEvaluator.evaluateConditionRule Js.noPrototype
    {| RightRuleConditionRule.field := "situation.atRiskOfViolence";
       RightRuleConditionRule.operator := notEquals;
       RightRuleConditionRule.value := Js.VBool true |}
    stateWithoutSituation = Ok true.
Proof.
  assert (Hfield : RuleEvaluator.getFieldValue Js.noPrototype
                     "situation.atRiskOfViolence" stateWithoutSituation
                   = Ok Js.VUndefined)
    by reflexivity.
  assert (Hvalue : Js.VBool true <> Js.VUndefined) by discriminate.
  pose proof (negative_operators_match_missing_field Js.noPrototype
                "situation.atRiskOfViolence" (Js.VBool true)
                stateWithoutSituation Hfield Hvalue)
    as (_ & _ & Hne & _).
  exact Hne.
Defined.

(** ** RuleEvaluator: paths compose *)

Lemma split_nonempty sep s : Js.split sep s <> [].
Proof.
  destruct s as [|c s]; cbn [Js.split]; [discriminate|].
  destruct (Ascii.eqb c sep); [discriminate|].
  destruct (Js.split sep s); discriminate.
Qed.

(** Splitting a path at a separator splits its pieces. *)
Lemma split_app sep p q :
  Js.split sep (p ++ String sep q) = (Js.split sep p ++ Js.split sep q)%list.
Proof.
  induction p as [|c p IH].
  - change ("" ++ String sep q) with (String sep q).
    cbn [Js.split]. rewrite Ascii.eqb_refl. reflexivity.
  - change (String c p ++ String sep q) with (String c (p ++ String sep q)).
    cbn [Js.split]. rewrite IH.
    destruct (Ascii.eqb c sep); [reflexivity|].
    pose proof (split_nonempty sep p) as Hne.
    destruct (Js.split sep p) as [|piece pieces]; [contradiction|]. reflexivity.
Qed.

Lemma walkPath_from_undefined inherited parts :
  RuleEvaluator.walkPath inherited parts Js.VUndefined = Ok Js.VUndefined.
Proof. destruct parts; reflexivity. Qed.

Lemma walkPath_app inherited pre post :
  forall current,
    RuleEvaluator.walkPath inherited (pre ++ post) current
    = let* reached := RuleEvaluator.walkPath inherited pre current in
      RuleEvaluator.walkPath inherited post reached.
Proof.
  induction pre as [|part pre IH]; intros current; [reflexivity|].
  change ((part :: pre) ++ post)%list with (part :: (pre ++ post))%list.
  rewrite !walkPath_step.
  destruct (hasMember inherited part current) eqn:Hm.
  - destruct (getProperty_of_member inherited _ _ Hm) as [next ->].
    cbn [bind]. apply IH.
  - cbn [bind]. rewrite walkPath_from_undefined. reflexivity.
Qed.

(** X9.  Resolving ["p.q"] is resolving [p] and then resolving [q] from
    the value reached, for all paths [p] and [q] (with dots of their own
    or without) and every session state. *)
Theorem getFieldValue_composes
  (inherited : Js.prototypeChain) (p q : string) (sessionState : Js.value) :
  RuleEvaluator.getFieldValue inherited (p ++ "." ++ q) sessionState
  = let* reached := RuleEvaluator.getFieldValue inherited p sessionState in
    RuleEvaluator.getFieldValue inherited q reached.
Proof.
  unfold RuleEvaluator.getFieldValue.
  change (p ++ "." ++ q) with (p ++ String "." q).
  rewrite split_app. apply walkPath_app.
Qed.

(** ** RuleEvaluator: [getTriggeredActions] and repeated evaluation *)

Lemma addAll_In seen ids x :
  In x (RuleEvaluator.addAll seen ids) <-> In x seen \/ In x ids.
Proof.
  revert seen. induction ids as [|actionId ids IH]; intros seen;
    cbn [RuleEvaluator.addAll].
  - cbn. tauto.
  - destruct (bool_decide (actionId ∈ seen)) eqn:Hseen.
    + apply bool_decide_eq_true, list_elem_of_In in Hseen.
      rewrite IH. cbn. intuition (subst; auto).
    + rewrite IH, in_app_iff. cbn. tauto.
Qed.

Lemma addAll_NoDup seen ids :
  NoDup seen -> NoDup (RuleEvaluator.addAll seen ids).
Proof.
  revert seen. induction ids as [|actionId ids IH]; intros seen Hseen;
    cbn [RuleEvaluator.addAll]; [exact Hseen|].
  destruct (bool_decide (actionId ∈ seen)) eqn:Hin; [apply IH, Hseen|].
  apply bool_decide_eq_false in Hin. apply IH.
  apply NoDup_app. split; [exact Hseen|]. split.
  - intros x Hx Hx'. apply list_elem_of_singleton in Hx'. subst x. exact (Hin Hx).
  - apply NoDup_singleton.
Qed.

Lemma fold_addAll_In (matching : list RightRule.t) :
  forall seen x,
    In x (fold_left (fun actionIds rule =>
                       RuleEvaluator.addAll actionIds (RightRule.actions rule))
                    matching seen)
    <-> In x seen
        \/ exists rule, In rule matching /\ In x (RightRule.actions rule).
Proof.
  induction matching as [|rule matching IH]; intros seen x; cbn [fold_left].
  - split; [auto | intros [H|(rule & [] & _)]; exact H].
  - rewrite IH, addAll_In. split.
    + intros [[H|H]|(r & Hr & Hx)]; [left; exact H | right | right].
      * exists rule. split; [left; reflexivity | exact H].
      * exists r. split; [right; exact Hr | exact Hx].
    + intros [H|(r & [<-|Hr] & Hx)].
      * left; left; exact H.
      * left; right; exact Hx.
      * right. exists r. split; assumption.
Qed.

Lemma fold_addAll_NoDup (matching : list RightRule.t) :
  forall seen,
    NoDup seen ->
    NoDup (fold_left (fun actionIds rule =>
                        RuleEvaluator.addAll actionIds (RightRule.actions rule))
                     matching seen).
Proof.
  induction matching as [|rule matching IH]; intros seen Hseen; [exact Hseen|].
  cbn [fold_left]. apply IH, addAll_NoDup, Hseen.
Qed.

(** X10.  [getTriggeredActions] lists each action id once, and lists
    exactly the ids named by some rule of the input that matches. *)
Theorem getTriggeredActions_distinct_union
  (inherited : Js.prototypeChain)
  (rules : list RightRule.t) (sessionState : Js.value) :
  NoDup (RuleEvaluator.getTriggeredActions inherited rules sessionState)
  /\ (forall actionId,
        In actionId
           (RuleEvaluator.getTriggeredActions inherited rules sessionState)
        <-> exists rule,
              In rule rules
              /\ RuleEvaluator.evaluateRule inherited rule sessionState = true
              /\ In actionId (RightRule.actions rule)).
Proof.
  unfold RuleEvaluator.getTriggeredActions. split.
  - apply fold_addAll_NoDup. constructor.
  - intros actionId. rewrite fold_addAll_In. cbn [In].
    unfold RuleEvaluator.evaluateRules.
    pose proof (sort_Permutation RuleEvaluator.byPriority rules) as Hperm.
    split.
    + intros [[]|(rule & Hin & Hid)]. apply filter_In in Hin as [Hin Hmatch].
      exists rule. split; [|split; assumption].
      eapply Permutation_in; [exact Hperm | exact Hin].
    + intros (rule & Hin & Hmatch & Hid). right. exists rule.
      split; [|exact Hid]. apply filter_In. split; [|exact Hmatch].
      eapply Permutation_in; [symmetry; exact Hperm | exact Hin].
Qed.

(** X11.  Evaluating the matched rules again changes nothing:
    [evaluateRules] applied to its own result returns that result. *)
Theorem evaluateRules_idempotent
  (inherited : Js.prototypeChain)
  (rules : list RightRule.t) (sessionState : Js.value) :
  RuleEvaluator.evaluateRules inherited
    (RuleEvaluator.evaluateRules inherited rules sessionState) sessionState
  = RuleEvaluator.evaluateRules inherited rules sessionState.
Proof.
  unfold RuleEvaluator.evaluateRules.
  rewrite (sort_of_sorted _ _ byPriority_key).
  - induction (Js.sort RuleEvaluator.byPriority rules) as [|rule l IH];
      [reflexivity|].
    cbn [List.filter].
    destruct (RuleEvaluator.evaluateRule inherited rule sessionState) eqn:Hm;
      [|exact IH].
    cbn [List.filter]. rewrite Hm, IH. reflexivity.
  - apply filter_StronglySorted, (sort_StronglySorted _ _ byPriority_key).
Qed.

(** ** ActionExecutor: what [prepareAction] demands *)

(** X12.  An action can execute exactly when the session state satisfies
    every required-information tag and every prerequisite is among the
    completed actions; absent lists demand nothing. *)
Theorem prepareAction_canExecute_iff
  (action : ActionTemplate.t) (sessionState : SessionState.t) :
  ActionExecutor.Prepared.canExecute
    (ActionExecutor.prepareAction action sessionState) = true
  <-> (forall info,
         In info (default [] (ActionTemplate.requiredInformation action)) ->
         ActionExecutor.hasRequiredInfo info sessionState = true)
      /\ (forall prereqId,
            In prereqId (default [] (ActionTemplate.prerequisites action)) ->
            In prereqId
               (List.map SessionState.actionId
                  (default [] (SessionState.completedActions sessionState)))).
Proof.
  rewrite prepareAction_canExecute.
  set (missing := ActionExecutor.Prepared.missingInformation
                    (ActionExecutor.prepareAction action sessionState)).
  assert (Hnil : missing = [] <-> forall item, ~ In item missing).
  { destruct missing as [|m missing']; split; try discriminate; auto.
    intros H. exfalso. apply (H m). left. reflexivity. }
  rewrite Hnil. subst missing. split.
  - intros Hnone. split.
    + intros info Hin.
      destruct (ActionExecutor.hasRequiredInfo info sessionState) eqn:Hhas;
        [reflexivity|].
      exfalso. apply (Hnone info), prepareAction_missingInformation.
      left. split; assumption.
    + intros prereqId Hin.
      destruct (in_dec string_dec prereqId
                  (List.map SessionState.actionId
                     (default [] (SessionState.completedActions sessionState))))
        as [Hdone|Hnot]; [exact Hdone|].
      exfalso.
      apply (Hnone ("Prerequisite action: " ++ prereqId)),
        prepareAction_missingInformation.
      right. exists prereqId. repeat split; assumption.
  - intros [Hinfo Hprereq] item Hitem.
    apply prepareAction_missingInformation in Hitem
      as [[Hin Hhas]|(prereqId & Hin & Hnot & _)].
    + rewrite (Hinfo item Hin) in Hhas. discriminate.
    + exact (Hnot (Hprereq prereqId Hin)).
Qed.

(** ** ActionExecutor: tags are matched without regard to case *)

Lemma lowerChar_upperChar c : Js.lowerChar (Js.upperChar c) = Js.lowerChar c.
Proof. destruct c as [[] [] [] [] [] [] [] []]; reflexivity. Qed.

Lemma lowerChar_lowerChar c : Js.lowerChar (Js.lowerChar c) = Js.lowerChar c.
Proof. destruct c as [[] [] [] [] [] [] [] []]; reflexivity. Qed.

Lemma toLowerCase_toUpperCase s :
  Js.toLowerCase (Js.toUpperCase s) = Js.toLowerCase s.
Proof.
  induction s as [|c s IH]; [reflexivity|].
  cbn. rewrite lowerChar_upperChar. f_equal. exact IH.
Qed.

Lemma toLowerCase_toLowerCase s :
  Js.toLowerCase (Js.toLowerCase s) = Js.toLowerCase s.
Proof.
  induction s as [|c s IH]; [reflexivity|].
  cbn. rewrite lowerChar_lowerChar. f_equal. exact IH.
Qed.

(** X13.  [hasRequiredInfo] ignores the case of the tag: a tag, its
    upper-case form and its lower-case form get the same answer in every
    session state. *)
Theorem hasRequiredInfo_ignores_case
  (info : string) (sessionState : SessionState.t) :
  ActionExecutor.hasRequiredInfo (Js.toUpperCase info) sessionState
  = ActionExecutor.hasRequiredInfo info sessionState
  /\ ActionExecutor.hasRequiredInfo (Js.toLowerCase info) sessionState
     = ActionExecutor.hasRequiredInfo info sessionState.
Proof.
  unfold ActionExecutor.hasRequiredInfo.
  rewrite toLowerCase_toUpperCase, toLowerCase_toLowerCase.
  split; reflexivity.
Qed.

(** ** ActionExecutor: [getNextSteps] *)

(** X14.  [getNextSteps] answers the empty list when the action has no
    outcome with the given id, and otherwise the next actions of the
    first outcome that has it (the empty list when that outcome names
    none). *)
Theorem getNextSteps_by_outcome
  (action : ActionTemplate.t) (outcomeId : string) :
  ((forall outcome,
      In outcome (default [] (ActionTemplate.outcomes action)) ->
      ActionOutcome.id outcome <> outcomeId) ->
   ActionExecutor.getNextSteps action outcomeId = [])
  /\ (forall before outcome after,
        default [] (ActionTemplate.outcomes action)
        = (before ++ outcome :: after)%list ->
        (forall earlier, In earlier before ->
                         ActionOutcome.id earlier <> outcomeId) ->
        ActionOutcome.id outcome = outcomeId ->
        ActionExecutor.getNextSteps action outcomeId
        = default [] (ActionOutcome.nextActions outcome)).
Proof.
  unfold ActionExecutor.getNextSteps.
  destruct (ActionTemplate.outcomes action) as [outcomes|]; cbn [default id from_option].
  2:{ split; [reflexivity|]. intros [|? ?] ? ? H; discriminate H. }
  cbn [mbind option_bind]. split.
  - intros Hnone.
    assert (Hfind : List.find
                      (fun o => String.eqb (ActionOutcome.id o) outcomeId)
                      outcomes = None).
    { induction outcomes as [|o outcomes IH]; [reflexivity|].
      cbn [List.find].
      rewrite (proj2 (String.eqb_neq _ _) (Hnone o (or_introl eq_refl))).
      apply IH. intros o' Ho'. apply Hnone. right. exact Ho'. }
    rewrite Hfind. reflexivity.
  - intros before outcome after -> Hbefore Hid.
    assert (Hfind : List.find
                      (fun o => String.eqb (ActionOutcome.id o) outcomeId)
                      (before ++ outcome :: after) = Some outcome).
    { induction before as [|o before IH]; cbn [app List.find].
      - rewrite (proj2 (String.eqb_eq _ _) Hid). reflexivity.
      - rewrite (proj2 (String.eqb_neq _ _) (Hbefore o (or_introl eq_refl))).
        apply IH. intros earlier Hin. apply Hbefore. right. exact Hin. }
    rewrite Hfind. reflexivity.
Qed.

(** ** ActionExecutor: [formatActionSteps] and the order of the steps *)

(** Two sorted arrangements of the same elements coincide when no two
    elements share a key. *)
Section SortedUnique.
Context {A : Type} (key : A -> Z) (comparefn : A -> A -> Z).
Hypothesis comparefn_key : forall a b, comparefn a b = key a - key b.

Lemma sorted_unique (l1 : list A) :
  forall l2,
    StronglySorted (keyLe key) l1 ->
    StronglySorted (keyLe key) l2 ->
    Permutation l1 l2 ->
    NoDup (List.map key l1) ->
    l1 = l2.
Proof.
  induction l1 as [|x l1 IH]; intros l2 Hs1 Hs2 Hperm Hnodup.
  - apply Permutation_nil in Hperm. symmetry. exact Hperm.
  - destruct l2 as [|y l2].
    { symmetry in Hperm. apply Permutation_nil in Hperm. discriminate. }
    apply StronglySorted_inv in Hs1 as [Hs1 Hall1].
    apply StronglySorted_inv in Hs2 as [Hs2 Hall2].
    cbn [List.map] in Hnodup. apply NoDup_cons in Hnodup as [Hfresh Hnodup].
    assert (Hxy : x = y).
    { assert (Hx : In x (y :: l2))
        by (eapply Permutation_in; [exact Hperm | left; reflexivity]).
      assert (Hy : In y (x :: l1))
        by (eapply Permutation_in; [symmetry; exact Hperm | left; reflexivity]).
      destruct Hx as [Hx|Hx]; [symmetry; exact Hx|].
      destruct Hy as [Hy|Hy]; [exact Hy|].
      exfalso. apply Hfresh.
      pose proof (proj1 (List.Forall_forall _ _) Hall1 y Hy) as Hle1.
      pose proof (proj1 (List.Forall_forall _ _) Hall2 x Hx) as Hle2.
      unfold keyLe in Hle1, Hle2.
      replace (key x) with (key y) by lia.
      apply list_elem_of_In, in_map, Hy. }
    subst y. f_equal. apply IH; try assumption.
    eapply Permutation_cons_inv. exact Hperm.
Qed.

Lemma sort_unique (l l' : list A) :
  Permutation l l' ->
  NoDup (List.map key l) ->
  Js.sort comparefn l = Js.sort comparefn l'.
Proof.
  intros Hperm Hnodup. apply sorted_unique.
  - apply (sort_StronglySorted _ _ comparefn_key).
  - apply (sort_StronglySorted _ _ comparefn_key).
  - rewrite !sort_Permutation. exact Hperm.
  - rewrite (Permutation_map key (sort_Permutation comparefn l)).
    exact Hnodup.
Qed.

End SortedUnique.

Lemma sort_cons_nonempty {A} (comparefn : A -> A -> Z) x l :
  exists y l', Js.sort comparefn (x :: l) = y :: l'.
Proof.
  pose proof (sort_Permutation comparefn (x :: l)) as Hperm.
  destruct (Js.sort comparefn (x :: l)) as [|y l']; [|eauto].
  apply Permutation_nil in Hperm. discriminate.
Qed.

(** X15.  A second call of [formatActionSteps] finds the steps already in
    order: on the action the first call leaves behind it returns the same
    text and changes nothing further. *)
Theorem formatActionSteps_second_call (action : ActionTemplate.t) :
  ActionExecutor.formatActionSteps
    (snd (ActionExecutor.formatActionSteps action))
  = ActionExecutor.formatActionSteps action.
Proof.
  destruct (ActionTemplate.steps action) as [[|step steps]|] eqn:Hsteps.
  - assert (Hfirst : snd (ActionExecutor.formatActionSteps action) = action)
      by (unfold ActionExecutor.formatActionSteps; rewrite Hsteps; reflexivity).
    rewrite Hfirst. reflexivity.
  - rewrite (formatActionSteps_leaves_sorted_steps action step steps Hsteps).
    unfold ActionExecutor.formatActionSteps.
    rewrite Hsteps. cbn [ActionTemplate.steps ActionTemplate.withSteps].
    pose proof (sort_of_sorted _ _ byOrder_key _
                  (sort_StronglySorted _ _ byOrder_key (step :: steps)))
      as Hsorted.
    destruct (sort_cons_nonempty ActionExecutor.byOrder step steps)
      as (first & others & Hcons).
    rewrite Hcons in *. rewrite Hsorted. reflexivity.
  - assert (Hfirst : snd (ActionExecutor.formatActionSteps action) = action)
      by (unfold ActionExecutor.formatActionSteps; rewrite Hsteps; reflexivity).
    rewrite Hfirst. reflexivity.
Qed.

(** X16.  The text does not depend on the order in which the steps are
    supplied, provided no two steps carry the same [order] number. *)
Theorem formatActionSteps_text_ignores_input_order
  (action : ActionTemplate.t) (steps steps' : list ActionStep.t) :
  Permutation steps steps' ->
  NoDup (List.map ActionStep.order steps) ->
  fst (ActionExecutor.formatActionSteps
         (ActionTemplate.withSteps action (Some steps)))
  = fst (ActionExecutor.formatActionSteps
           (ActionTemplate.withSteps action (Some steps'))).
Proof.
  intros Hperm Hnodup.
  pose proof (sort_unique _ _ byOrder_key steps steps' Hperm Hnodup) as Hsort.
  unfold ActionExecutor.formatActionSteps.
  cbn [ActionTemplate.steps ActionTemplate.withSteps].
  destruct steps as [|step steps]; destruct steps' as [|step' steps'].
  - reflexivity.
  - apply Permutation_nil in Hperm. discriminate.
  - symmetry in Hperm. apply Permutation_nil in Hperm. discriminate.
  - rewrite Hsort. reflexivity.
Qed.

Lemma formatActionSteps_text_ignores_input_order_witness :
  fst (ActionExecutor.formatActionSteps
         (ActionTemplate.withSteps (sampleAction "a1" None None)
            (Some [sampleStep 2 "second"; sampleStep 1 "first"])))
  = fst (ActionExecutor.formatActionSteps
           (ActionTemplate.withSteps (sampleAction "a1" None None)
              (Some [sampleStep 1 "first"; sampleStep 2 "second"]))).
Proof.
  apply formatActionSteps_text_ignores_input_order.
  - apply perm_swap.
  - cbn. apply NoDup_cons. split.
    + intros H. apply list_elem_of_singleton in H. discriminate H.
    + apply NoDup_singleton.
Defined.

(** ** ContentPackLoader: registering, replacing and removing packs *)

(** X17.  Loading a valid pack returns normally and registers it: the
    pack is what [getContentPack] then answers for its id, and the answer
    for every other id is as before. *)
Theorem loadContentPack_registers_valid
  (pack : ContentPack.t) (packId : string) (self : ContentPackLoader.t) :
  validContentPack pack ->
  ContentPack.id pack = Some packId ->
  let outcome := ContentPackLoader.loadContentPack pack self in
  fst outcome = Ok tt
  /\ ContentPackLoader.getContentPack (snd outcome) packId = Some pack
  /\ (forall other,
        other <> packId ->
        ContentPackLoader.getContentPack (snd outcome) other
        = ContentPackLoader.getContentPack self other).
Proof.
  intros Hvalid Hid outcome. subst outcome.
  rewrite (loadContentPack_accepts_valid pack self Hvalid). cbn [fst snd].
  unfold ContentPackLoader.getContentPack. cbn [ContentPackLoader.loadedPacks].
  rewrite Hid. split; [reflexivity|]. split.
  - apply lookup_insert_eq.
  - intros other Hother. apply lookup_insert_ne. congruence.
Qed.

Lemma validContentPack_samplePack id :
  id <> EmptyString ->
  validContentPack (samplePack id (Some "1.0.0") [sampleAction "a1" None None]).
Proof.
  intros Hid. unfold validContentPack, samplePack.
  cbn [ContentPack.id ContentPack.name ContentPack.version
       ContentPack.jurisdiction ContentPack.questions ContentPack.rules
       ContentPack.actions ContentPack.services].
  split; [exists id; split; [reflexivity | exact Hid]|].
  split; [eexists; split; [reflexivity | discriminate]|].
  split; [eexists; split; [reflexivity | discriminate]|].
  split; [eexists; split; [reflexivity | discriminate]|].
  split.
  { exists "1.0.0". split; [reflexivity|].
    apply versionRegexTest_matchesSemVer. reflexivity. }
  unfold distinctIds. cbn.
  repeat split; try apply NoDup_nil_2; apply NoDup_singleton.
Qed.

Lemma loadContentPack_registers_valid_witness :
  ContentPackLoader.getContentPack
    (snd (ContentPackLoader.loadContentPack
            (samplePack "wales" (Some "1.0.0") [sampleAction "a1" None None])
            loaderWithOnePack))
    "wales"
  = Some (samplePack "wales" (Some "1.0.0") [sampleAction "a1" None None]).
Proof.
  assert (Hvalid : validContentPack
                     (samplePack "wales" (Some "1.0.0")
                        [sampleAction "a1" None None]))
    by (apply validContentPack_samplePack; discriminate).
  exact (proj1 (proj2 (loadContentPack_registers_valid _ "wales"
                         loaderWithOnePack Hvalid eq_refl))).
Defined.

(** X18.  The last load wins: loading a valid pack over another one with
    the same id leaves the loader as if only the second had been loaded. *)
Theorem loadContentPack_last_load_wins
  (first second : ContentPack.t) (self : ContentPackLoader.t) :
  validContentPack first ->
  validContentPack second ->
  ContentPack.id first = ContentPack.id second ->
  snd (ContentPackLoader.loadContentPack second
         (snd (ContentPackLoader.loadContentPack first self)))
  = snd (ContentPackLoader.loadContentPack second self).
Proof.
  intros Hfirst Hsecond Hid.
  rewrite (loadContentPack_accepts_valid first self Hfirst). cbn [snd].
  rewrite !(loadContentPack_accepts_valid second _ Hsecond). cbn [snd].
  cbn [ContentPackLoader.loadedPacks]. rewrite Hid, insert_insert_eq.
  reflexivity.
Qed.

Lemma loadContentPack_last_load_wins_witness :
  snd (ContentPackLoader.loadContentPack
         (samplePack "england" (Some "1.0.0") [sampleAction "a1" None None])
         loaderWithOnePack)
  = loaderWithOnePack.
Proof.
  assert (Hvalid : validContentPack
                     (samplePack "england" (Some "1.0.0")
                        [sampleAction "a1" None None]))
    by (apply validContentPack_samplePack; discriminate).
  exact (loadContentPack_last_load_wins _ _ ContentPackLoader.create
           Hvalid Hvalid eq_refl).
Defined.

(** X19.  [removeContentPack] answers whether the pack was registered;
    afterwards [getContentPack] has nothing for that id and answers for
    every other id as before. *)
Theorem removeContentPack_forgets_one
  (packId : string) (self : ContentPackLoader.t) :
  let outcome := ContentPackLoader.removeContentPack packId self in
  (fst outcome = true
   <-> ContentPackLoader.getContentPack self packId <> None)
  /\ ContentPackLoader.getContentPack (snd outcome) packId = None
  /\ (forall other,
        other <> packId ->
        ContentPackLoader.getContentPack (snd outcome) other
        = ContentPackLoader.getContentPack self other).
Proof.
  cbv zeta. unfold ContentPackLoader.removeContentPack,
    ContentPackLoader.getContentPack.
  cbn [fst snd ContentPackLoader.loadedPacks]. split; [|split].
  - rewrite bool_decide_eq_true, <- not_eq_None_Some. reflexivity.
  - apply lookup_delete_eq.
  - intros other Hother. apply lookup_delete_ne. congruence.
Qed.

(** X20.  Removing a pack that was loaded under a fresh id undoes the
    load: the loader is what it was before. *)
Theorem removeContentPack_undoes_fresh_load
  (pack : ContentPack.t) (packId : string) (self : ContentPackLoader.t) :
  validContentPack pack ->
  ContentPack.id pack = Some packId ->
  ContentPackLoader.getContentPack self packId = None ->
  snd (ContentPackLoader.removeContentPack packId
         (snd (ContentPackLoader.loadContentPack pack self)))
  = self.
Proof.
  intros Hvalid Hid Hfresh.
  rewrite (loadContentPack_accepts_valid pack self Hvalid). cbn [snd].
  unfold ContentPackLoader.removeContentPack. cbn [snd ContentPackLoader.loadedPacks].
  rewrite Hid, delete_insert_id by exact Hfresh.
  destruct self. reflexivity.
Qed.

Lemma removeContentPack_undoes_fresh_load_witness :
  snd (ContentPackLoader.removeContentPack "wales"
         (snd (ContentPackLoader.loadContentPack
                 (samplePack "wales" (Some "1.0.0") [sampleAction "a1" None None])
                 loaderWithOnePack)))
  = loaderWithOnePack.
Proof.
  assert (Hvalid : validContentPack
                     (samplePack "wales" (Some "1.0.0")
                        [sampleAction "a1" None None]))
    by (apply validContentPack_samplePack; discriminate).
  exact (removeContentPack_undoes_fresh_load _ "wales" loaderWithOnePack
           Hvalid eq_refl eq_refl).
Defined.

(** ** ContentPackLoader: reading from a pack *)

(** X21.  For an id under which no pack is registered every accessor
    answers empty-handed: the list accessors and the three service
    searches return the empty list, the single-item accessors and the
    entry point return nothing.  None of them throws. *)
Theorem accessors_on_unknown_pack
  (self : ContentPackLoader.t) (packId itemId type : string) :
  ContentPackLoader.getContentPack self packId = None ->
  ContentPackLoader.getRules self packId = []
  /\ ContentPackLoader.getActions self packId = []
  /\ ContentPackLoader.getServices self packId = []
  /\ ContentPackLoader.getQuestions self packId = []
  /\ ContentPackLoader.getAction self packId itemId = None
  /\ ContentPackLoader.getService self packId itemId = None
  /\ ContentPackLoader.getQuestion self packId itemId = None
  /\ ContentPackLoader.getEntryPoint self packId = None
  /\ ContentPackLoader.findServicesByType self packId type = []
  /\ ContentPackLoader.findPetFriendlyServices self packId = []
  /\ ContentPackLoader.find24_7Services self packId = [].
Proof.
  intros Hnone.
  unfold ContentPackLoader.getAction, ContentPackLoader.getService,
    ContentPackLoader.getQuestion, ContentPackLoader.getEntryPoint,
    ContentPackLoader.findServicesByType,
    ContentPackLoader.findPetFriendlyServices,
    ContentPackLoader.find24_7Services,
    ContentPackLoader.getRules, ContentPackLoader.getActions,
    ContentPackLoader.getServices, ContentPackLoader.getQuestions.
  rewrite Hnone. repeat split.
Qed.

Lemma accessors_on_unknown_pack_witness :
  ContentPackLoader.getRules loaderWithOnePack "scotland" = []
  /\ ContentPackLoader.getAction loaderWithOnePack "scotland" "a1" = None.
Proof.
  assert (Hnone : ContentPackLoader.getContentPack loaderWithOnePack "scotland"
                  = None) by reflexivity.
  pose proof (accessors_on_unknown_pack loaderWithOnePack "scotland" "a1" ""
                Hnone) as (Hrules & _ & _ & _ & Haction & _).
  split; [exact Hrules | exact Haction].
Defined.

Lemma find_by_distinct_id {A} `{HasId A} (items : list A) (item : A) :
  NoDup (List.map getId items) ->
  In item items ->
  List.find (fun candidate => String.eqb (getId candidate) (getId item)) items
  = Some item.
Proof.
  induction items as [|x items IH]; intros Hnodup Hin; [contradiction|].
  cbn [List.map] in Hnodup. apply NoDup_cons in Hnodup as [Hfresh Hnodup].
  cbn [List.find]. destruct (String.eqb_spec (getId x) (getId item)) as [Heq|Hne].
  - destruct Hin as [->|Hin]; [reflexivity|].
    exfalso. apply Hfresh. rewrite Heq. apply list_elem_of_In, in_map, Hin.
  - destruct Hin as [->|Hin]; [contradiction|]. apply IH; assumption.
Qed.

(** X22.  In a loader whose packs are valid, looking an item up by its
    id finds that very item: every action, service and question of a
    registered pack is returned by [getAction], [getService] and
    [getQuestion] when asked for its id. *)
Theorem items_found_by_id
  (self : ContentPackLoader.t) (packId : string) (pack : ContentPack.t) :
  packsValid self ->
  ContentPackLoader.getContentPack self packId = Some pack ->
  (forall action,
     In action (default [] (ContentPack.actions pack)) ->
     ContentPackLoader.getAction self packId (ActionTemplate.id action)
     = Some action)
  /\ (forall service,
        In service (default [] (ContentPack.services pack)) ->
        ContentPackLoader.getService self packId (Service.id service)
        = Some service)
  /\ (forall question,
        In question (default [] (ContentPack.questions pack)) ->
        ContentPackLoader.getQuestion self packId (Question.id question)
        = Some question).
Proof.
  intros [Hvalid _] Hpack.
  destruct (Hvalid packId pack Hpack)
    as (_ & _ & _ & _ & _ & Hquestions & _ & Hactions & Hservices).
  unfold ContentPackLoader.getAction, ContentPackLoader.getService,
    ContentPackLoader.getQuestion, ContentPackLoader.getActions,
    ContentPackLoader.getServices, ContentPackLoader.getQuestions.
  rewrite Hpack. cbn [mbind option_bind].
  split; [|split]; intros item Hin.
  - apply (find_by_distinct_id (H:=ActionTemplate_HasId)); assumption.
  - apply (find_by_distinct_id (H:=Service_HasId)); assumption.
  - apply (find_by_distinct_id (H:=Question_HasId)); assumption.
Qed.

Lemma items_found_by_id_witness :
  ContentPackLoader.getAction loaderWithOnePack "england" "a1"
  = Some (sampleAction "a1" None None).
Proof.
  assert (Hvalid : packsValid loaderWithOnePack).
  { apply allValid_packsValid, allValid_loadContentPack, allValid_create. }
  assert (Hpack : ContentPackLoader.getContentPack loaderWithOnePack "england"
                  = Some (samplePack "england" (Some "1.0.0")
                            [sampleAction "a1" None None]))
    by reflexivity.
  apply (proj1 (items_found_by_id loaderWithOnePack "england" _ Hvalid Hpack)
           (sampleAction "a1" None None)).
  left. reflexivity.
Defined.

(** ** ContentPackLoader: loading from a URL *)

(** X23.  [loadContentPackFromUrl] either throws and leaves the loader
    untouched, or returns the pack it fetched; in the second case the
    response was ok, the pack is valid, and it is now registered under
    its id. *)
Theorem loadContentPackFromUrl_outcome
  (fetched : ContentPackLoader.Fetched) (self : ContentPackLoader.t) :
  let outcome := ContentPackLoader.loadContentPackFromUrl fetched self in
  (exists message, outcome = (Throw message, self))
  \/ (exists statusText pack,
        fetched = ContentPackLoader.Response true statusText (Ok pack)
        /\ validContentPack pack
        /\ fst outcome = Ok pack
        /\ ContentPackLoader.loadedPacks (snd outcome) !! ContentPack.id pack
           = Some pack).
Proof.
  cbv zeta. unfold ContentPackLoader.loadContentPackFromUrl.
  destruct fetched as [reason|[] statusText [pack|e]]; cbn [negb];
    try (left; eexists; reflexivity).
  unfold ContentPackLoader.loadContentPack.
  destruct (validateContentPack_cases pack)
    as [[Hvalid ->]|[_ (message & -> & _)]];
    [|left; eexists; reflexivity].
  right. exists statusText, pack. split; [reflexivity|].
  split; [exact Hvalid|]. split; [reflexivity|].
  cbn [snd ContentPackLoader.loadedPacks]. apply lookup_insert_eq.
Qed.

(** ** ContentPackLoader: which ids a duplicate error names *)

Lemma occurrences_pos x ids : In x ids <-> (1 <= occurrences x ids)%nat.
Proof.
  unfold occurrences. induction ids as [|y ids IH]; cbn [List.filter In length].
  - split; [intros [] | lia].
  - destruct (String.eqb_spec x y) as [->|Hne]; cbn [length].
    + split; [lia | auto].
    + rewrite <- IH. split; [intros [Heq|H]; [congruence | exact H] | auto].
Qed.

Lemma occurrences_cons x y ids :
  occurrences x (y :: ids)
  = ((if String.eqb x y then 1 else 0) + occurrences x ids)%nat.
Proof.
  unfold occurrences. cbn [List.filter].
  destruct (String.eqb x y); reflexivity.
Qed.

Section DuplicatesNamed.
Context {A : Type} `{HasId A}.

Lemma collectDuplicates_In (items : list A) (x : string) :
  forall ids : gset string,
    In x (ContentPackLoader.collectDuplicates items ids)
    <-> (x ∈ ids /\ In x (List.map getId items))
        \/ (2 <= occurrences x (List.map getId items))%nat.
Proof.
  induction items as [|item items IH]; intros ids.
  - cbn. unfold occurrences. cbn. split; [intros [] | intros [[_ []]|Hle]; lia].
  - cbn [ContentPackLoader.collectDuplicates List.map].
    rewrite occurrences_cons.
    pose proof (occurrences_pos x (List.map getId items)) as Hpos.
    assert (Hrest : In x (ContentPackLoader.collectDuplicates items
                            ({[getId item]} ∪ ids))
                    <-> ((x = getId item \/ x ∈ ids)
                         /\ In x (List.map getId items))
                        \/ (2 <= occurrences x (List.map getId items))%nat).
    { rewrite IH, elem_of_union, elem_of_singleton. reflexivity. }
    destruct (String.eqb_spec x (getId item)) as [Heq|Hne].
    + destruct (bool_decide (getId item ∈ ids)) eqn:Hseen.
      * apply bool_decide_eq_true in Hseen. split.
        -- intros _. left. split; [rewrite Heq; exact Hseen | left; auto].
        -- intros _. left. auto.
      * apply bool_decide_eq_false in Hseen. rewrite Hrest. split.
        -- intros [[_ Hin]|Hle]; right; [apply Hpos in Hin|]; lia.
        -- intros [[Hin _]|Hle].
           ++ exfalso. apply Hseen. rewrite <- Heq. exact Hin.
           ++ left. split; [left; exact Heq | apply Hpos; lia].
    + assert (Hresult :
               In x (if bool_decide (getId item ∈ ids)
                     then getId item
                          :: ContentPackLoader.collectDuplicates items
                               ({[getId item]} ∪ ids)
                     else ContentPackLoader.collectDuplicates items
                            ({[getId item]} ∪ ids))
               <-> In x (ContentPackLoader.collectDuplicates items
                           ({[getId item]} ∪ ids))).
      { destruct (bool_decide (getId item ∈ ids)); [|reflexivity].
        cbn [In]. split; [intros [Heq|Hin]; [congruence | exact Hin] | auto]. }
      rewrite Hresult, Hrest. cbn [In]. split.
      * intros [[[Heq|Hin] Hitems]|Hle]; [congruence | left | right].
        -- split; [exact Hin | right; exact Hitems].
        -- lia.
      * intros [[Hin [Heq|Hitems]]|Hle]; [congruence | left | right].
        -- split; [right; exact Hin | exact Hitems].
        -- lia.
Qed.

(** X24.  When [checkDuplicateIds] throws, its message lists exactly the
    ids that occur more than once in the collection. *)
Theorem checkDuplicateIds_names_repeated_ids
  (items : list A) (type message : string) :
  ContentPackLoader.checkDuplicateIds items type = Throw message ->
  exists duplicates,
    message = "Duplicate " ++ type ++ " IDs found in content pack: "
              ++ Js.join ", " duplicates
    /\ duplicates <> []
    /\ (forall x,
          In x duplicates
          <-> (2 <= occurrences x (List.map getId items))%nat).
Proof.
  unfold ContentPackLoader.checkDuplicateIds.
  pose proof (fun x => collectDuplicates_In items x ∅) as Hin.
  destruct (ContentPackLoader.collectDuplicates items ∅) as [|d ds];
    cbn [length Nat.ltb Nat.leb]; [discriminate|].
  intros [= <-]. exists (d :: ds). split; [reflexivity|].
  split; [discriminate|].
  intros x. rewrite Hin. split; [|auto].
  intros [[Hempty _]|Hle]; [|exact Hle].
  exfalso. exact (not_elem_of_empty x Hempty).
Qed.

End DuplicatesNamed.

Lemma checkDuplicateIds_names_repeated_ids_witness :
  exists duplicates,
    "Duplicate actions IDs found in content pack: a1"
    = "Duplicate " ++ "actions" ++ " IDs found in content pack: "
      ++ Js.join ", " duplicates
    /\ duplicates <> []
    /\ (forall x,
          In x duplicates
          <-> (2 <= occurrences x (List.map getId twoActionsNamedA1))%nat).
Proof.
  apply (checkDuplicateIds_names_repeated_ids twoActionsNamedA1 "actions").
  reflexivity.
Defined.

(** ** EngineDemo: what the demo ends up showing *)

Lemma defined_In {A} (xs : list (option A)) (x : A) :
  In x (EngineDemo.defined xs) <-> In (Some x) xs.
Proof.
  induction xs as [|[y|] xs IH]; cbn [EngineDemo.defined In].
  - reflexivity.
  - rewrite IH. split; (intros [Heq|Hin]; [left; congruence | right; exact Hin]).
  - rewrite IH. split; [auto | intros [Heq|Hin]; [discriminate | exact Hin]].
Qed.

(** X25.  When the pack fetched is valid and carries the id the demo asks
    for, the demo ends loaded, shows the pack's rules that match the
    example session, and shows exactly those actions of the pack that a
    matched rule names: an action id without a template in the pack
    shows nothing and raises nothing. *)
Theorem demo_shows_the_named_actions_of_the_pack
  (inherited : Js.prototypeChain) (statusText now : string)
  (pack : ContentPack.t)
  (loader : ContentPackLoader.t) (component : EngineDemo.t) :
  validContentPack pack ->
  ContentPack.id pack = Some EngineDemo.packId ->
  let shown :=
    fst (EngineDemo.loadContentPackAndEvaluate inherited
           (ContentPackLoader.Response true statusText (Ok pack))
           now loader component) in
  EngineDemo.isLoaded shown = true
  /\ EngineDemo.error shown = EngineDemo.error component
  /\ EngineDemo.matchedRules shown
     = RuleEvaluator.evaluateRules inherited
         (default [] (ContentPack.rules pack)) (EngineDemo.exampleSession now)
  /\ (forall action,
        In action (EngineDemo.triggeredActions shown)
        <-> In action (default [] (ContentPack.actions pack))
            /\ exists rule,
                 In rule (EngineDemo.matchedRules shown)
                 /\ In (ActionTemplate.id action) (RightRule.actions rule)).
Proof.
  intros Hvalid Hid shown. subst shown.
  unfold EngineDemo.loadContentPackAndEvaluate,
    ContentPackLoader.loadContentPackFromUrl.
  cbn [negb]. rewrite (loadContentPack_accepts_valid pack loader Hvalid).
  unfold ContentPackLoader.getAction, ContentPackLoader.getActions,
    ContentPackLoader.getRules, ContentPackLoader.getContentPack.
  cbn [ContentPackLoader.loadedPacks]. rewrite Hid, lookup_insert_eq.
  cbn [mbind option_bind fst EngineDemo.isLoaded EngineDemo.error
       EngineDemo.matchedRules EngineDemo.triggeredActions].
  split; [reflexivity|]. split; [reflexivity|]. split; [reflexivity|].
  destruct Hvalid as (_ & _ & _ & _ & _ & _ & _ & Hactions & _).
  intros action. rewrite defined_In, in_map_iff. split.
  - intros (actionId & Hfound & Hnamed).
    apply find_some in Hfound as [Hin Heq]. apply String.eqb_eq in Heq.
    split; [exact Hin|].
    apply in_flat_map in Hnamed as (rule & Hrule & Hnamed).
    exists rule. split; [exact Hrule|]. rewrite Heq. exact Hnamed.
  - intros (Hin & rule & Hrule & Hnamed).
    exists (ActionTemplate.id action). split.
    + apply (find_by_distinct_id (H:=ActionTemplate_HasId)); assumption.
    + apply in_flat_map. exists rule. split; assumption.
Qed.

Lemma demo_shows_the_named_actions_of_the_pack_witness :
  EngineDemo.isLoaded
    (fst (EngineDemo.loadContentPackAndEvaluate Js.noPrototype
            (ContentPackLoader.Response true "OK"
               (Ok (samplePack EngineDemo.packId (Some "1.0.0")
                      [sampleAction "a1" None None])))
            "2024-01-01T00:00:00.000Z"
            ContentPackLoader.create EngineDemo.initial))
  = true.
Proof.
  assert (Hvalid : validContentPack
                     (samplePack EngineDemo.packId (Some "1.0.0")
                        [sampleAction "a1" None None]))
    by (apply validContentPack_samplePack; discriminate).
  exact (proj1 (demo_shows_the_named_actions_of_the_pack Js.noPrototype
                  "OK" "2024-01-01T00:00:00.000Z" _
                  ContentPackLoader.create EngineDemo.initial
                  Hvalid eq_refl)).
Defined.

(** X26.  When the pack fetched is valid but carries another id, and no
    pack is registered under the id the demo asks for, the demo reports
    "Failed to load content pack" and shows nothing new, while the pack
    it fetched stays registered in the loader. *)
Theorem demo_fails_on_a_pack_with_another_id
  (inherited : Js.prototypeChain) (statusText now : string)
  (pack : ContentPack.t)
  (loader : ContentPackLoader.t) (component : EngineDemo.t) :
  validContentPack pack ->
  ContentPack.id pack <> Some EngineDemo.packId ->
  ContentPackLoader.getContentPack loader EngineDemo.packId = None ->
  let outcome :=
    EngineDemo.loadContentPackAndEvaluate inherited
      (ContentPackLoader.Response true statusText (Ok pack))
      now loader component in
  fst outcome = EngineDemo.failed "Failed to load content pack" component
  /\ ContentPackLoader.loadedPacks (snd outcome) !! ContentPack.id pack
     = Some pack.
Proof.
  intros Hvalid Hid Hnone outcome. subst outcome.
  unfold EngineDemo.loadContentPackAndEvaluate,
    ContentPackLoader.loadContentPackFromUrl.
  cbn [negb]. rewrite (loadContentPack_accepts_valid pack loader Hvalid).
  unfold ContentPackLoader.getContentPack in *.
  cbn [ContentPackLoader.loadedPacks].
  rewrite lookup_insert_ne by exact Hid. rewrite Hnone.
  cbn [fst snd ContentPackLoader.loadedPacks].
  split; [reflexivity | apply lookup_insert_eq].
Qed.

Lemma demo_fails_on_a_pack_with_another_id_witness :
  EngineDemo.error
    (fst (EngineDemo.loadContentPackAndEvaluate Js.noPrototype
            (ContentPackLoader.Response true "OK"
               (Ok (samplePack "wales" (Some "1.0.0")
                      [sampleAction "a1" None None])))
            "2024-01-01T00:00:00.000Z"
            loaderWithOnePack EngineDemo.initial))
  = Some "Failed to load content pack".
Proof.
  assert (Hvalid : validContentPack
                     (samplePack "wales" (Some "1.0.0")
                        [sampleAction "a1" None None]))
    by (apply validContentPack_samplePack; discriminate).
  assert (Hid : ContentPack.id (samplePack "wales" (Some "1.0.0")
                                  [sampleAction "a1" None None])
                <> Some EngineDemo.packId) by discriminate.
  assert (Hnone : ContentPackLoader.getContentPack loaderWithOnePack
                    EngineDemo.packId = None) by reflexivity.
  rewrite (proj1 (demo_fails_on_a_pack_with_another_id Js.noPrototype
                    "OK" "2024-01-01T00:00:00.000Z" _
                    loaderWithOnePack EngineDemo.initial Hvalid Hid Hnone)).
  reflexivity.
Defined.

(** ** ContentPackLoader: the entry point *)

(** X27.  [getEntryPoint] answers nothing when the pack names no entry
    point (absent or empty); what it does answer is a question of the
    pack whose id is the entry point the pack names. *)
Theorem getEntryPoint_is_the_named_question
  (self : ContentPackLoader.t) (packId : string) (pack : ContentPack.t) :
  ContentPackLoader.getContentPack self packId = Some pack ->
  (Js.truthyString (ContentPack.entryPoint pack) = false ->
   ContentPackLoader.getEntryPoint self packId = None)
  /\ (forall question,
        ContentPackLoader.getEntryPoint self packId = Some question ->
        In question (default [] (ContentPack.questions pack))
        /\ ContentPack.entryPoint pack = Some (Question.id question)).
Proof.
  intros Hpack. unfold ContentPackLoader.getEntryPoint,
    ContentPackLoader.getQuestion, ContentPackLoader.getQuestions.
  rewrite Hpack. cbn [mbind option_bind].
  destruct (ContentPack.entryPoint pack) as [entryPoint|]; split;
    try discriminate; try reflexivity.
  - intros ->. reflexivity.
  - intros question.
    destruct (Js.truthyString (Some entryPoint)); [|discriminate].
    intros Hfound. apply find_some in Hfound as [Hin Heq].
    apply String.eqb_eq in Heq. split; [exact Hin | congruence].
Qed.

Lemma getEntryPoint_is_the_named_question_witness :
  ContentPackLoader.getEntryPoint loaderWithOnePack "england" = None.
Proof.
  assert (Hpack : ContentPackLoader.getContentPack loaderWithOnePack "england"
                  = Some (samplePack "england" (Some "1.0.0")
                            [sampleAction "a1" None None]))
    by reflexivity.
  apply (proj1 (getEntryPoint_is_the_named_question loaderWithOnePack
                  "england" _ Hpack)).
  reflexivity.
Defined.

(** ** ActionExecutor: completing actions never blocks one *)

Lemma hasRequiredInfo_withCompletedActions info sessionState completed :
  ActionExecutor.hasRequiredInfo info
    (withCompletedActions sessionState completed)
  = ActionExecutor.hasRequiredInfo info sessionState.
Proof. reflexivity. Qed.

(** X28.  An action that can execute can still execute after further
    actions have been completed: if every action completed in the first
    state is completed in the second, and the two states otherwise
    agree, [canExecute] stays [true]. *)
Theorem canExecute_survives_more_completed_actions
  (action : ActionTemplate.t) (sessionState : SessionState.t)
  (completed : list SessionState.completedAction_t) :
  (forall actionId,
     In actionId
        (List.map SessionState.actionId
           (default [] (SessionState.completedActions sessionState))) ->
     In actionId (List.map SessionState.actionId completed)) ->
  ActionExecutor.Prepared.canExecute
    (ActionExecutor.prepareAction action sessionState) = true ->
  ActionExecutor.Prepared.canExecute
    (ActionExecutor.prepareAction action
       (withCompletedActions sessionState completed)) = true.
Proof.
  intros Hmore Hcan.
  apply prepareAction_canExecute in Hcan. apply prepareAction_canExecute.
  destruct (ActionExecutor.Prepared.missingInformation
              (ActionExecutor.prepareAction action
                 (withCompletedActions sessionState completed)))
    as [|item items] eqn:Hmissing; [reflexivity|].
  exfalso.
  assert (Hitem : In item
                    (ActionExecutor.Prepared.missingInformation
                       (ActionExecutor.prepareAction action
                          (withCompletedActions sessionState completed))))
    by (rewrite Hmissing; left; reflexivity).
  assert (Hold : In item
                   (ActionExecutor.Prepared.missingInformation
                      (ActionExecutor.prepareAction action sessionState))).
  { apply prepareAction_missingInformation.
    apply prepareAction_missingInformation in Hitem
      as [[Hin Hhas]|(prereqId & Hin & Hnot & ->)].
    - left. split; [exact Hin|].
      rewrite hasRequiredInfo_withCompletedActions in Hhas. exact Hhas.
    - right. exists prereqId. split; [exact Hin|]. split; [|reflexivity].
      intros Hdone. apply Hnot. apply Hmore, Hdone. }
  rewrite Hcan in Hold. exact Hold.
Qed.

Lemma canExecute_survives_more_completed_actions_witness :
  ActionExecutor.Prepared.canExecute
    (ActionExecutor.prepareAction
       (sampleAction "a1" None (Some ["Current location"]))
       (withCompletedActions sampleSession
          [{| SessionState.actionId := "assess";
              SessionState.completedAt := "2024-01-02T00:00:00.000Z";
              SessionState.outcome := None |};
           {| SessionState.actionId := "register";
              SessionState.completedAt := "2024-01-01T00:10:00.000Z";
              SessionState.outcome := None |}]))
  = true.
Proof.
  apply canExecute_survives_more_completed_actions; [|reflexivity].
  intros actionId [<-|[]]. right. left. reflexivity.
Defined.

(** ** RuleEvaluator: [contains] on strings *)

Lemma prefix_iff (s1 : string) :
  forall s2, String.prefix s1 s2 = true <-> exists post, s2 = s1 ++ post.
Proof.
  induction s1 as [|a s1 IH]; intros s2.
  - destruct s2; cbn [String.prefix]; (split; [intros _; eexists; reflexivity | reflexivity]).
  - destruct s2 as [|b s2]; cbn [String.prefix].
    + split; [discriminate | intros (post & Hpost); discriminate Hpost].
    + destruct (ascii_dec a b) as [<-|Hne].
      * rewrite IH. split; intros (post & Hpost); exists post.
        -- exact (f_equal (String a) Hpost).
        -- change (String a s1 ++ post) with (String a (s1 ++ post)) in Hpost.
           congruence.
      * split; [discriminate|]. intros (post & Hpost).
        change (String a s1 ++ post) with (String a (s1 ++ post)) in Hpost.
        congruence.
Qed.

Lemma stringIncludes_iff (hay needle : string) :
  Js.stringIncludes hay needle = true
  <-> exists pre post, hay = pre ++ needle ++ post.
Proof.
  unfold Js.stringIncludes.
  assert (Hmain : (exists m, String.index 0 needle hay = Some m)
                  <-> exists pre post, hay = pre ++ needle ++ post).
  { induction hay as [|c hay IH]; cbn [String.index].
    - split.
      + destruct needle; [|intros (m & Hm); discriminate Hm].
        intros _. exists "", "". reflexivity.
      + intros (pre & post & Heq). destruct pre; [|discriminate Heq].
        destruct needle; [eexists; reflexivity | discriminate Heq].
    - destruct (String.prefix needle (String c hay)) eqn:Hprefix.
      + split; [|intros _; eexists; reflexivity].
        intros _. apply prefix_iff in Hprefix as (post & Hpost).
        exists "", post. exact Hpost.
      + split.
        * intros (m & Hm).
          destruct (String.index 0 needle hay) as [m'|] eqn:Hrest;
            [|discriminate Hm].
          destruct (proj1 IH (ex_intro _ m' eq_refl)) as (pre & post & Heq).
          exists (String c pre), post. exact (f_equal (String c) Heq).
        * intros (pre & post & Heq). destruct pre as [|a pre].
          -- exfalso.
             assert (Htrue : String.prefix needle (String c hay) = true)
               by (apply prefix_iff; exists post; exact Heq).
             congruence.
          -- change (String a pre ++ needle ++ post)
               with (String a (pre ++ needle ++ post)) in Heq.
             injection Heq as _ Heq.
             destruct (proj2 IH (ex_intro _ pre (ex_intro _ post Heq)))
               as (m & ->).
             eexists. reflexivity. }
  destruct (String.index 0 needle hay) as [m|].
  - split; [intros _; apply Hmain; eexists; reflexivity | reflexivity].
  - split; [discriminate|]. intros Hex. apply Hmain in Hex as (m & Hm).
    discriminate Hm.
Qed.

(** X29.  When the field resolves to a string and the rule's value is a
    string, [contains] holds exactly when the value occurs in the field
    value as a substring; the empty string occurs in every string. *)
Theorem contains_on_strings_is_substring
  (inherited : Js.prototypeChain)
  (field fieldValue value : string) (sessionState : Js.value) :
  RuleEvaluator.getFieldValue inherited field sessionState
  = Ok (Js.VString fieldValue) ->
  RuleEvaluator.evaluateConditionRule inherited
    {| RightRuleConditionRule.field := field;
       RightRuleConditionRule.operator := contains;
       RightRuleConditionRule.value := Js.VString value |} sessionState
  = Ok true
  <-> exists before after, fieldValue = before ++ value ++ after.
Proof.
  intros Hfield. unfold RuleEvaluator.evaluateConditionRule.
  cbn [RightRuleConditionRule.field RightRuleConditionRule.operator
       RightRuleConditionRule.value].
  rewrite Hfield. cbn [bind]. rewrite <- stringIncludes_iff.
  split; [intros [= ->]; reflexivity | intros ->; reflexivity].
Qed.

Lemma contains_on_strings_is_substring_witness :
  RuleEvaluator.evaluateConditionRule Js.noPrototype
    {| RightRuleConditionRule.field := "currentLocation";
       RightRuleConditionRule.operator := contains;
       RightRuleConditionRule.value := Js.VString "Station" |}
    (Js.VObject [("currentLocation", Js.VString "Waterloo Station, London")])
  = Ok true.
Proof.
  assert (Hfield : RuleEvaluator.getFieldValue Js.noPrototype "currentLocation"
                     (Js.VObject
                        [("currentLocation",
                          Js.VString "Waterloo Station, London")])
                   = Ok (Js.VString "Waterloo Station, London"))
    by reflexivity.
  apply (proj2 (contains_on_strings_is_substring Js.noPrototype
                  "currentLocation" "Waterloo Station, London" "Station"
                  _ Hfield)).
  exists "Waterloo ", ", London". reflexivity.
Defined.

(** ** ContentPackLoader: packs sit under their own id *)

Lemma keyedById_loadContentPack pack self :
  keyedById self ->
  keyedById (snd (ContentPackLoader.loadContentPack pack self)).
Proof.
  intros Hkeyed. unfold ContentPackLoader.loadContentPack.
  destruct (ContentPackLoader.validateContentPack pack) as [[]|message];
    [|exact Hkeyed].
  intros key pack' Hlookup. cbn in Hlookup.
  destruct (decide (ContentPack.id pack = key)) as [<-|Hne].
  - rewrite lookup_insert_eq in Hlookup. injection Hlookup as <-. reflexivity.
  - rewrite lookup_insert_ne in Hlookup by exact Hne. eapply Hkeyed, Hlookup.
Qed.

Lemma keyedById_after call self :
  keyedById self -> keyedById (ContentPackLoader.after call self).
Proof.
  intros Hkeyed. destruct call; cbn [ContentPackLoader.after]; try exact Hkeyed.
  - apply keyedById_loadContentPack, Hkeyed.
  - unfold ContentPackLoader.loadContentPackFromUrl.
    destruct fetched as [reason|ok statusText [packData|e]]; try exact Hkeyed;
      destruct ok; cbn [negb snd]; try exact Hkeyed.
    pose proof (keyedById_loadContentPack packData self Hkeyed) as Hload.
    destruct (ContentPackLoader.loadContentPack packData self) as [[[]|e] self'];
      exact Hload.
  - intros key pack Hlookup. cbn in Hlookup.
    rewrite lookup_empty in Hlookup. discriminate.
  - intros key pack Hlookup. cbn in Hlookup.
    apply lookup_delete_Some in Hlookup as [_ Hlookup]. eapply Hkeyed, Hlookup.
Qed.

Lemma keyedById_reachable calls :
  keyedById (ContentPackLoader.afterAll calls ContentPackLoader.create)
  /\ allValid (ContentPackLoader.afterAll calls ContentPackLoader.create).
Proof.
  unfold ContentPackLoader.afterAll.
  assert (Hstart : keyedById ContentPackLoader.create
                   /\ allValid ContentPackLoader.create).
  { split; [|apply allValid_create].
    intros key pack Hlookup. cbn in Hlookup.
    rewrite lookup_empty in Hlookup. discriminate. }
  revert Hstart. generalize ContentPackLoader.create.
  induction calls as [|call calls IH]; intros self [Hkeyed Hvalid];
    [split; assumption|].
  cbn [fold_left]. apply IH. split;
    [apply keyedById_after, Hkeyed | apply allValid_after, Hvalid].
Qed.

(** X30.  Whatever calls are made on a fresh loader, a pack is only ever
    handed out under its own id, and the two ways of reading agree: the
    packs [getAllContentPacks] lists are exactly those [getContentPack]
    returns for some id. *)
Theorem packs_sit_under_their_own_id
  (calls : list ContentPackLoader.Call) (pack : ContentPack.t) :
  let self := ContentPackLoader.afterAll calls ContentPackLoader.create in
  (forall packId,
     ContentPackLoader.getContentPack self packId = Some pack ->
     ContentPack.id pack = Some packId)
  /\ (In pack (ContentPackLoader.getAllContentPacks self)
      <-> exists packId,
            ContentPackLoader.getContentPack self packId = Some pack).
Proof.
  cbv zeta. destruct (keyedById_reachable calls) as [Hkeyed Hvalid].
  set (self := ContentPackLoader.afterAll calls ContentPackLoader.create) in *.
  split.
  - intros packId Hpack. exact (Hkeyed (Some packId) pack Hpack).
  - unfold ContentPackLoader.getAllContentPacks,
      ContentPackLoader.getContentPack. rewrite in_map_iff. split.
    + intros ([key pack'] & Hsnd & Hin). cbn in Hsnd. subst pack'.
      apply list_elem_of_In, elem_of_map_to_list in Hin.
      pose proof (Hkeyed key pack Hin) as Hkey.
      destruct (Hvalid key pack Hin) as ((packId & Hid & _) & _).
      exists packId. rewrite <- Hid, Hkey. exact Hin.
    + intros (packId & Hpack). exists (Some packId, pack).
      split; [reflexivity|].
      apply list_elem_of_In, elem_of_map_to_list, Hpack.
Qed.
